(** * Analysis engine of the infrastructure monitoring agent

    A shallow embedding of [models.py] and of [analysis_node] from [nodes.py],
    followed by the properties of the insight aggregation, the anomaly
    detection and the service-status aggregation.

    Conventions of the embedding.
    - A Python [float] is modelled by a rational number ([Q]), a decimal
      literal by the rational it writes, and [>] on floats by the order of
      the rationals.  The not-a-number and the infinite floats are outside
      the model.  [mean] and [py_round] compute on exact numbers, without
      the representation error of binary floats: what is proved about the
      values of the averaged and rounded fields is proved for every mean
      and rounding function with the properties stated in [averages] and
      [rounds_monotonically], which correctly rounded float arithmetic has.
    - A Python [int] is a [Z], a [str] is a [string].
    - An exception is a value of [PyError], carried in the left summand of
      [result].
    - [anomaly_map] is a Python [dict]: an association list in insertion
      order, where assigning to a present key keeps the key's position.
    - A Python [set] of strings is a [gset string]. *)

From Stdlib Require Import QArith Qabs Lqa.
From stdpp Require Import gmap strings list sorting.

Open Scope string_scope.
Open Scope list_scope.

#[local] Set Warnings "-clear-no-such-hyp".

(** ** models.py *)

Module ServiceStatus.
Record t := mk { database : string; api_gateway : string; cache : string }.

(** [model_dump().items()]: the fields in declaration order. *)
Definition model_dump_items (s : t) : list (string * string) :=
  [("database", database s); ("api_gateway", api_gateway s); ("cache", cache s)].
End ServiceStatus.

Module InputData.
Record t := mk {
  timestamp : string;
  cpu_usage : Q;
  memory_usage : Q;
  latency_ms : Q;
  disk_usage : Q;
  network_in_kbps : Q;
  network_out_kbps : Q;
  io_wait : Q;
  thread_count : Z;
  active_connections : Z;
  error_rate : Q;
  uptime_seconds : Z;
  temperature_celsius : Q;
  power_consumption_watts : Q;
  service_status : ServiceStatus.t
}.
End InputData.

Module Insights.
Record t := mk {
  average_latency_ms : Q;
  max_cpu_usage : Q;
  max_memory_usage : Q;
  error_rate : Q;
  uptime_seconds : Z
}.
End Insights.

(** [Literal["low", "medium", "high"]] *)
Inductive Severity := low | medium | high.

(** The f-strings of [analysis_node], one constructor per template, holding
    the interpolated values. *)
Inductive Description :=
| CpuReached (v : Q) (timestamp : string)
| CpuElevated (v : Q)
| MemoryCritical (v : Q)
| LatencySpike (v : Q)
| ErrorRateCritical (percent : Q)
| ServerTemperature (v : Q)
| IoWaitElevated (v : Q).

Module Anomaly.
Record t := mk {
  metric : string;
  value : Q;
  threshold : Q;
  severity : Severity;
  description : Description
}.
End Anomaly.

Module ServiceStatusSummary.
Record t := mk {
  online : list string;
  degraded : list string;
  offline : list string
}.
End ServiceStatusSummary.

(** ** Exceptions *)

Inductive PyError :=
| StatisticsError
| ValueError
| IndexError
| KeyError (key : string).

Definition result (A : Type) : Type := PyError + A.

Definition ret {A} (a : A) : result A := inr a.
Definition raise {A} (e : PyError) : result A := inl e.
Definition bind {A B} (r : result A) (k : A → result B) : result B :=
  match r with
  | inl e => inl e
  | inr a => k a
  end.

Notation "x <- r ;; k" := (bind r (λ x, k))
  (at level 100, r at next level, right associativity).

(** A [for] loop whose body may raise. *)
Fixpoint for_each {A S} (body : S → A → result S) (xs : list A) (s : S) : result S :=
  match xs with
  | [] => ret s
  | x :: xs' => s' <- body s x ;; for_each body xs' s'
  end.

(** ** Floats *)

Definition Qgtb (x y : Q) : bool := negb (Qle_bool x y).

(** Nearest integer, ties to the even one. *)
Definition round_half_even (x : Q) : Z :=
  let n := Qnum x in
  let d := Zpos (Qden x) in
  let f := (n / d)%Z in
  match (2 * (n mod d) ?= d)%Z with
  | Lt => f
  | Gt => (f + 1)%Z
  | Eq => if Z.even f then f else (f + 1)%Z
  end.

(** [round(x, ndigits)] on exact numbers: the nearest multiple of
    [10^-ndigits], ties to the even one.  On floats the code rounds the
    binary value and returns the nearest float; the statements that depend
    on the difference take the function as a parameter
    ([compute_insights_with]). *)
Definition py_round (x : Q) (ndigits : positive) : Q :=
  Qred (inject_Z (round_half_even (x * inject_Z (10 ^ Zpos ndigits)))
        / inject_Z (10 ^ Zpos ndigits)).

Definition Qsum (xs : list Q) : Q := foldr Qplus 0%Q xs.

(** [statistics.mean] on exact numbers.  On floats the code returns this
    mean rounded to the nearest float; the statements that depend on the
    difference take the function as a parameter ([compute_insights_with]). *)
Definition mean (xs : list Q) : result Q :=
  match xs with
  | [] => raise StatisticsError
  | _ => ret (Qsum xs / inject_Z (Z.of_nat (length xs)))%Q
  end.

(** [max] of a sequence: the first of the greatest elements. *)
Definition py_max (xs : list Q) : result Q :=
  match xs with
  | [] => raise ValueError
  | x :: xs' => ret (fold_left (λ m y, if Qgtb y m then y else m) xs' x)
  end.

(** [xs[-1]] *)
Definition last_item {A} (xs : list A) : result A :=
  match last xs with
  | None => raise IndexError
  | Some x => ret x
  end.

(** ** nodes.py *)

Module Levels.
Record t := mk { high : Q; medium : Q }.
End Levels.

Module Thresholds.
Record t := mk {
  cpu_usage : Levels.t;
  memory_usage : Levels.t;
  latency_ms : Levels.t;
  error_rate : Levels.t;
  temperature_celsius : Levels.t;
  io_wait : Levels.t
}.
End Thresholds.

Definition THRESHOLDS : Thresholds.t := {|
  Thresholds.cpu_usage := {| Levels.high := 85; Levels.medium := 75 |};
  Thresholds.memory_usage := {| Levels.high := 80; Levels.medium := 70 |};
  Thresholds.latency_ms := {| Levels.high := 250; Levels.medium := 180 |};
  Thresholds.error_rate := {| Levels.high := 0.05; Levels.medium := 0.02 |};
  Thresholds.temperature_celsius := {| Levels.high := 75; Levels.medium := 65 |};
  Thresholds.io_wait := {| Levels.high := 10; Levels.medium := 7 |}
|}.

(** *** The dictionary [anomaly_map] *)

Definition anomaly_dict := list (string * Anomaly.t).

Fixpoint dict_get (k : string) (m : anomaly_dict) : option Anomaly.t :=
  match m with
  | [] => None
  | (k', a) :: m' => if decide (k' = k) then Some a else dict_get k m'
  end.

(** [k in m] *)
Definition dict_in (k : string) (m : anomaly_dict) : bool :=
  match dict_get k m with
  | Some _ => true
  | None => false
  end.

(** [m[k] = a] *)
Fixpoint dict_set (k : string) (a : Anomaly.t) (m : anomaly_dict) : anomaly_dict :=
  match m with
  | [] => [(k, a)]
  | (k', a') :: m' =>
      if decide (k' = k) then (k, a) :: m' else (k', a') :: dict_set k a m'
  end.

(** [list(m.values())] *)
Definition dict_values (m : anomaly_dict) : list Anomaly.t := m.*2.

(** [k not in anomaly_map or v > anomaly_map[k].value] *)
Definition absent_or_greater (k : string) (v : Q) (m : anomaly_dict) : bool :=
  match dict_get k m with
  | None => true
  | Some a => Qgtb v (Anomaly.value a)
  end.

(** *** Anomaly detection: the body of [for entry in data] *)

Definition scan_entry (anomaly_map : anomaly_dict) (entry : InputData.t) : anomaly_dict :=
  (* CPU anomaly *)
  let anomaly_map :=
    if Qgtb (InputData.cpu_usage entry) (Levels.high (Thresholds.cpu_usage THRESHOLDS)) then
      let severity := high in
      if absent_or_greater "cpu_usage" (InputData.cpu_usage entry) anomaly_map then
        dict_set "cpu_usage"
          {| Anomaly.metric := "cpu_usage";
             Anomaly.value := InputData.cpu_usage entry;
             Anomaly.threshold := Levels.high (Thresholds.cpu_usage THRESHOLDS);
             Anomaly.severity := severity;
             Anomaly.description :=
               CpuReached (InputData.cpu_usage entry) (InputData.timestamp entry) |}
          anomaly_map
      else anomaly_map
    else if Qgtb (InputData.cpu_usage entry) (Levels.medium (Thresholds.cpu_usage THRESHOLDS)) then
      if negb (dict_in "cpu_usage" anomaly_map) then
        dict_set "cpu_usage"
          {| Anomaly.metric := "cpu_usage";
             Anomaly.value := InputData.cpu_usage entry;
             Anomaly.threshold := Levels.medium (Thresholds.cpu_usage THRESHOLDS);
             Anomaly.severity := medium;
             Anomaly.description := CpuElevated (InputData.cpu_usage entry) |}
          anomaly_map
      else anomaly_map
    else anomaly_map in
  (* Memory anomaly *)
  let anomaly_map :=
    if Qgtb (InputData.memory_usage entry) (Levels.high (Thresholds.memory_usage THRESHOLDS)) then
      if absent_or_greater "memory_usage" (InputData.memory_usage entry) anomaly_map then
        dict_set "memory_usage"
          {| Anomaly.metric := "memory_usage";
             Anomaly.value := InputData.memory_usage entry;
             Anomaly.threshold := Levels.high (Thresholds.memory_usage THRESHOLDS);
             Anomaly.severity := high;
             Anomaly.description := MemoryCritical (InputData.memory_usage entry) |}
          anomaly_map
      else anomaly_map
    else anomaly_map in
  (* Latency anomaly *)
  let anomaly_map :=
    if Qgtb (InputData.latency_ms entry) (Levels.high (Thresholds.latency_ms THRESHOLDS)) then
      if absent_or_greater "latency_ms" (InputData.latency_ms entry) anomaly_map then
        dict_set "latency_ms"
          {| Anomaly.metric := "latency_ms";
             Anomaly.value := InputData.latency_ms entry;
             Anomaly.threshold := Levels.high (Thresholds.latency_ms THRESHOLDS);
             Anomaly.severity := high;
             Anomaly.description := LatencySpike (InputData.latency_ms entry) |}
          anomaly_map
      else anomaly_map
    else anomaly_map in
  (* Error rate anomaly *)
  let anomaly_map :=
    if Qgtb (InputData.error_rate entry) (Levels.high (Thresholds.error_rate THRESHOLDS)) then
      if absent_or_greater "error_rate" (InputData.error_rate entry) anomaly_map then
        dict_set "error_rate"
          {| Anomaly.metric := "error_rate";
             Anomaly.value := InputData.error_rate entry;
             Anomaly.threshold := Levels.high (Thresholds.error_rate THRESHOLDS);
             Anomaly.severity := high;
             Anomaly.description := ErrorRateCritical (InputData.error_rate entry * 100) |}
          anomaly_map
      else anomaly_map
    else anomaly_map in
  (* Temperature anomaly *)
  let anomaly_map :=
    if Qgtb (InputData.temperature_celsius entry)
            (Levels.high (Thresholds.temperature_celsius THRESHOLDS)) then
      if absent_or_greater "temperature_celsius" (InputData.temperature_celsius entry)
           anomaly_map then
        dict_set "temperature_celsius"
          {| Anomaly.metric := "temperature_celsius";
             Anomaly.value := InputData.temperature_celsius entry;
             Anomaly.threshold := Levels.high (Thresholds.temperature_celsius THRESHOLDS);
             Anomaly.severity := high;
             Anomaly.description := ServerTemperature (InputData.temperature_celsius entry) |}
          anomaly_map
      else anomaly_map
    else anomaly_map in
  (* IO wait anomaly *)
  let anomaly_map :=
    if Qgtb (InputData.io_wait entry) (Levels.high (Thresholds.io_wait THRESHOLDS)) then
      if absent_or_greater "io_wait" (InputData.io_wait entry) anomaly_map then
        dict_set "io_wait"
          {| Anomaly.metric := "io_wait";
             Anomaly.value := InputData.io_wait entry;
             Anomaly.threshold := Levels.high (Thresholds.io_wait THRESHOLDS);
             Anomaly.severity := medium;
             Anomaly.description := IoWaitElevated (InputData.io_wait entry) |}
          anomaly_map
      else anomaly_map
    else anomaly_map in
  anomaly_map.

(** The scan started from a given dictionary, and the whole loop, which
    starts from the empty one. *)
Definition scan_from (anomaly_map : anomaly_dict) (data : list InputData.t) : anomaly_dict :=
  fold_left scan_entry data anomaly_map.

Definition scan (data : list InputData.t) : anomaly_dict := scan_from [] data.

(** [state["anomalies"]] *)
Definition detect_anomalies (data : list InputData.t) : list Anomaly.t :=
  dict_values (scan data).

(** *** Insights *)

Definition compute_insights (data : list InputData.t) : result Insights.t :=
  let latencies := InputData.latency_ms <$> data in
  let cpu_usages := InputData.cpu_usage <$> data in
  let memory_usages := InputData.memory_usage <$> data in
  let error_rates := InputData.error_rate <$> data in
  mean_latency <- mean latencies ;;
  max_cpu <- py_max cpu_usages ;;
  max_memory <- py_max memory_usages ;;
  mean_error <- mean error_rates ;;
  last_entry <- last_item data ;;
  ret {| Insights.average_latency_ms := py_round mean_latency 2;
         Insights.max_cpu_usage := py_round max_cpu 2;
         Insights.max_memory_usage := py_round max_memory 2;
         Insights.error_rate := py_round mean_error 4;
         Insights.uptime_seconds := InputData.uptime_seconds last_entry |}.

(** *** Service status aggregation *)

Module Tracker.
Record t := mk {
  online : gset string;
  degraded : gset string;
  offline : gset string
}.
End Tracker.

(** [status_tracker[status].add(service)]; a [status] that is not a key of
    [status_tracker] raises [KeyError]. *)
Definition tracker_add (tr : Tracker.t) (item : string * string) : result Tracker.t :=
  let '(service, status) := item in
  if decide (status = "online") then
    ret {| Tracker.online := Tracker.online tr ∪ {[service]};
           Tracker.degraded := Tracker.degraded tr;
           Tracker.offline := Tracker.offline tr |}
  else if decide (status = "degraded") then
    ret {| Tracker.online := Tracker.online tr;
           Tracker.degraded := Tracker.degraded tr ∪ {[service]};
           Tracker.offline := Tracker.offline tr |}
  else if decide (status = "offline") then
    ret {| Tracker.online := Tracker.online tr;
           Tracker.degraded := Tracker.degraded tr;
           Tracker.offline := Tracker.offline tr ∪ {[service]} |}
  else raise (KeyError status).

Definition track_entry (tr : Tracker.t) (entry : InputData.t) : result Tracker.t :=
  for_each tracker_add (ServiceStatus.model_dump_items (InputData.service_status entry)) tr.

(** [s.discard(x)] *)
Definition discard (s : gset string) (x : string) : gset string := s ∖ {[x]}.

(** [for service in xs: s.discard(service)] *)
Definition discard_all (xs : gset string) (s : gset string) : gset string :=
  set_fold (λ service acc, discard acc service) s xs.

(** [sorted(list(s))] *)
Definition sorted (s : gset string) : list string :=
  merge_sort String.le (elements s).

Definition resolve_statuses (tr : Tracker.t) : ServiceStatusSummary.t :=
  let tr :=
    if bool_decide (Tracker.offline tr ≠ ∅) then
      {| Tracker.online := discard_all (Tracker.offline tr) (Tracker.online tr);
         Tracker.degraded := discard_all (Tracker.offline tr) (Tracker.degraded tr);
         Tracker.offline := Tracker.offline tr |}
    else tr in
  let tr :=
    if bool_decide (Tracker.degraded tr ≠ ∅) then
      {| Tracker.online := discard_all (Tracker.degraded tr) (Tracker.online tr);
         Tracker.degraded := Tracker.degraded tr;
         Tracker.offline := Tracker.offline tr |}
    else tr in
  {| ServiceStatusSummary.online := sorted (Tracker.online tr);
     ServiceStatusSummary.degraded := sorted (Tracker.degraded tr);
     ServiceStatusSummary.offline := sorted (Tracker.offline tr) |}.

Definition service_status_summary (data : list InputData.t) : result ServiceStatusSummary.t :=
  tr <- for_each track_entry data
          {| Tracker.online := ∅; Tracker.degraded := ∅; Tracker.offline := ∅ |} ;;
  ret (resolve_statuses tr).

(** *** [analysis_node] *)

(** The keys of [GraphState] that [analysis_node] reads or writes; it leaves
    the other keys as they are. *)
Module GraphState.
Record t := mk {
  parsed_data : list InputData.t;
  insights : option Insights.t;
  anomalies : list Anomaly.t;
  service_status_summary : option ServiceStatusSummary.t
}.
End GraphState.

Definition analysis_node (state : GraphState.t) : result GraphState.t :=
  let data := GraphState.parsed_data state in
  insights <- compute_insights data ;;
  let anomaly_map := scan data in
  summary <- service_status_summary data ;;
  ret {| GraphState.parsed_data := data;
         GraphState.insights := Some insights;
         GraphState.anomalies := dict_values anomaly_map;
         GraphState.service_status_summary := Some summary |}.

(** * The scan, rule by rule

    [scan_entry] applies six rules in sequence, each to the slot of one key.
    The definitions below name the rules, the records they build and their
    effect on a slot; [scan_entry_rules] relates them to [scan_entry]. *)

(** The anomaly records that [scan_entry] builds. *)

Definition cpu_high (e : InputData.t) : Anomaly.t :=
  {| Anomaly.metric := "cpu_usage";
     Anomaly.value := InputData.cpu_usage e;
     Anomaly.threshold := 85;
     Anomaly.severity := high;
     Anomaly.description := CpuReached (InputData.cpu_usage e) (InputData.timestamp e) |}.

Definition cpu_medium (e : InputData.t) : Anomaly.t :=
  {| Anomaly.metric := "cpu_usage";
     Anomaly.value := InputData.cpu_usage e;
     Anomaly.threshold := 75;
     Anomaly.severity := medium;
     Anomaly.description := CpuElevated (InputData.cpu_usage e) |}.

(** The five metrics that have a single rule, [if v > high: ...]. *)
Inductive Gauge := Memory | Latency | ErrorRate | Temperature | IoWait.

Definition key (g : Gauge) : string :=
  match g with
  | Memory => "memory_usage"
  | Latency => "latency_ms"
  | ErrorRate => "error_rate"
  | Temperature => "temperature_celsius"
  | IoWait => "io_wait"
  end.

Definition reading (g : Gauge) (e : InputData.t) : Q :=
  match g with
  | Memory => InputData.memory_usage e
  | Latency => InputData.latency_ms e
  | ErrorRate => InputData.error_rate e
  | Temperature => InputData.temperature_celsius e
  | IoWait => InputData.io_wait e
  end.

Definition limit (g : Gauge) : Q :=
  match g with
  | Memory => 80
  | Latency => 250
  | ErrorRate => 0.05
  | Temperature => 75
  | IoWait => 10
  end.

Definition anomaly_of (g : Gauge) (e : InputData.t) : Anomaly.t :=
  {| Anomaly.metric := key g;
     Anomaly.value := reading g e;
     Anomaly.threshold := limit g;
     Anomaly.severity := match g with IoWait => medium | _ => high end;
     Anomaly.description :=
       match g with
       | Memory => MemoryCritical (InputData.memory_usage e)
       | Latency => LatencySpike (InputData.latency_ms e)
       | ErrorRate => ErrorRateCritical (InputData.error_rate e * 100)
       | Temperature => ServerTemperature (InputData.temperature_celsius e)
       | IoWait => IoWaitElevated (InputData.io_wait e)
       end |}.

Definition cpu_rule (e : InputData.t) (m : anomaly_dict) : anomaly_dict :=
  if Qgtb (InputData.cpu_usage e) 85 then
    if absent_or_greater "cpu_usage" (InputData.cpu_usage e) m
    then dict_set "cpu_usage" (cpu_high e) m else m
  else if Qgtb (InputData.cpu_usage e) 75 then
    if negb (dict_in "cpu_usage" m) then dict_set "cpu_usage" (cpu_medium e) m else m
  else m.

Definition gauge_rule (g : Gauge) (e : InputData.t) (m : anomaly_dict) : anomaly_dict :=
  if Qgtb (reading g e) (limit g) then
    if absent_or_greater (key g) (reading g e) m
    then dict_set (key g) (anomaly_of g e) m else m
  else m.

(** What a rule does to the slot of its own key. *)

Definition cpu_slot (e : InputData.t) (o : option Anomaly.t) : option Anomaly.t :=
  if Qgtb (InputData.cpu_usage e) 85 then
    match o with
    | None => Some (cpu_high e)
    | Some b => if Qgtb (InputData.cpu_usage e) (Anomaly.value b) then Some (cpu_high e) else o
    end
  else if Qgtb (InputData.cpu_usage e) 75 then
    match o with
    | None => Some (cpu_medium e)
    | Some _ => o
    end
  else o.

Definition gauge_slot (g : Gauge) (e : InputData.t) (o : option Anomaly.t) : option Anomaly.t :=
  if Qgtb (reading g e) (limit g) then
    match o with
    | None => Some (anomaly_of g e)
    | Some b => if Qgtb (reading g e) (Anomaly.value b) then Some (anomaly_of g e) else o
    end
  else o.

(** The entries that the scan of a snapshot can write. *)
Definition emits (e : InputData.t) : list (string * Anomaly.t) :=
  [("cpu_usage", cpu_high e); ("cpu_usage", cpu_medium e);
   (key Memory, anomaly_of Memory e); (key Latency, anomaly_of Latency e);
   (key ErrorRate, anomaly_of ErrorRate e);
   (key Temperature, anomaly_of Temperature e); (key IoWait, anomaly_of IoWait e)].

(** A snapshot breaches the threshold of a single-rule metric. *)
Definition breaches (g : Gauge) (e : InputData.t) : Prop := (limit g < reading g e)%Q.

(** * Sample inputs, after test_pipeline.py *)

Definition all_online : ServiceStatus.t :=
  {| ServiceStatus.database := "online";
     ServiceStatus.api_gateway := "online";
     ServiceStatus.cache := "online" |}.

(** A snapshot with the constant fields of the tests. *)
Definition snapshot (cpu memory latency io_wait error_rate : Q) (uptime : Z)
    (temperature : Q) (status : ServiceStatus.t) : InputData.t :=
  {| InputData.timestamp := "2023-10-01T12:00:00Z";
     InputData.cpu_usage := cpu;
     InputData.memory_usage := memory;
     InputData.latency_ms := latency;
     InputData.disk_usage := 50;
     InputData.network_in_kbps := 1000;
     InputData.network_out_kbps := 800;
     InputData.io_wait := io_wait;
     InputData.thread_count := 100;
     InputData.active_connections := 30;
     InputData.error_rate := error_rate;
     InputData.uptime_seconds := uptime;
     InputData.temperature_celsius := temperature;
     InputData.power_consumption_watts := 200;
     InputData.service_status := status |}.

(** A snapshot within every threshold, but for the given [cpu_usage]. *)
Definition quiet (cpu : Q) : InputData.t :=
  snapshot cpu 60 100 3 0.01 10000 60 all_online.

(** The snapshot of [test_multiple_anomaly_detection]. *)
Definition six_breaches : InputData.t :=
  snapshot 90 85 300 12 0.08 10000 80 all_online.

(** * Vocabulary of the statements *)

(** The keys of [status_tracker]. *)
Definition recognised (status : string) : Prop :=
  status = "online" ∨ status = "degraded" ∨ status = "offline".

(** All [(service, status)] items of the snapshots, in iteration order. *)
Definition status_items (data : list InputData.t) : list (string * string) :=
  data ≫= λ e, ServiceStatus.model_dump_items (InputData.service_status e).

(** Every status string of the input is a key of [status_tracker]. *)
Definition statuses_recognised (data : list InputData.t) : Prop :=
  Forall (λ item, recognised item.2) (status_items data).

(** Some snapshot reports [service] in state [status]. *)
Definition reported (data : list InputData.t) (service status : string) : Prop :=
  ∃ e, e ∈ data ∧
       (service, status) ∈ ServiceStatus.model_dump_items (InputData.service_status e).

(** [service] is a key of the service-status map of some snapshot. *)
Definition observed (data : list InputData.t) (service : string) : Prop :=
  ∃ status, reported data service status.

(** The three lists of a summary, one after the other. *)
Definition all_services (s : ServiceStatusSummary.t) : list string :=
  ServiceStatusSummary.online s ++ ServiceStatusSummary.degraded s ++
  ServiceStatusSummary.offline s.

(** The two snapshots of [test_service_status_prioritization]. *)
Definition conflicting_reports : list InputData.t :=
  [snapshot 50 60 100 3 0.01 10000 60
     {| ServiceStatus.database := "online";
        ServiceStatus.api_gateway := "degraded";
        ServiceStatus.cache := "online" |};
   snapshot 50 60 100 3 0.01 11800 60
     {| ServiceStatus.database := "offline";
        ServiceStatus.api_gateway := "online";
        ServiceStatus.cache := "degraded" |}].

(** A state as [main.py] builds it, with the given [parsed_data]. *)
Definition initial_state (data : list InputData.t) : GraphState.t :=
  {| GraphState.parsed_data := data;
     GraphState.insights := None;
     GraphState.anomalies := [];
     GraphState.service_status_summary := None |}.

(** A snapshot whose [api_gateway] reports a state that is not a key of
    [status_tracker]. *)
Definition under_maintenance : InputData.t :=
  snapshot 50 60 100 3 0.01 10000 60
    {| ServiceStatus.database := "online";
       ServiceStatus.api_gateway := "maintenance";
       ServiceStatus.cache := "online" |}.

(** What the [cpu_usage] slot holds after the snapshots [seen]: nothing if
    none is above 75; a [high] record of the greatest reading if one is
    above 85; else the [medium] record of the first snapshot above 75. *)
Definition cpu_slot_after (seen : list InputData.t) (o : option Anomaly.t) : Prop :=
  match o with
  | None => ∀ e, e ∈ seen → (InputData.cpu_usage e <= 75)%Q
  | Some a =>
      ((85 < Anomaly.value a)%Q ∧
       (∃ e, e ∈ seen ∧ a = cpu_high e) ∧
       (∀ e, e ∈ seen → (InputData.cpu_usage e <= Anomaly.value a)%Q)) ∨
      ((∀ e, e ∈ seen → (InputData.cpu_usage e <= 85)%Q) ∧
       ∃ before e after,
         seen = before ++ e :: after ∧
         (∀ e', e' ∈ before → (InputData.cpu_usage e' <= 75)%Q) ∧
         (75 < InputData.cpu_usage e)%Q ∧ a = cpu_medium e)
  end.

(** No rule of [scan_entry] fires on the snapshot: every [if] of the loop
    body compares a reading with [>] against these thresholds. *)
Definition within_thresholds (e : InputData.t) : Prop :=
  (InputData.cpu_usage e <= 75)%Q ∧
  (InputData.memory_usage e <= 80)%Q ∧
  (InputData.latency_ms e <= 250)%Q ∧
  (InputData.error_rate e <= 0.05)%Q ∧
  (InputData.temperature_celsius e <= 75)%Q ∧
  (InputData.io_wait e <= 10)%Q.

(** The keys that [scan_entry] writes, in the order of its rules. *)
Definition metric_names : list string :=
  ["cpu_usage"; "memory_usage"; "latency_ms"; "error_rate";
   "temperature_celsius"; "io_wait"].

(** * The rest of the pipeline

    The pure parts of [llm_enrichment_node] and [output_node] (nodes.py) and
    of [validate_output] (validate.py).  The model call, the clock and the
    files are outside the model: the text of a float in an f-string and the
    text of [datetime.utcnow().isoformat()] are parameters of the
    definitions that use them, and [validate_output] is modelled from the
    point where the report has been read and parsed into an [OutputData]. *)

(** [Dict], as [json.loads] builds it. *)
#[local] Unset Elimination Schemes.
Inductive Json :=
| JNull
| JBool (b : bool)
| JNumber (q : Q)
| JString (s : string)
| JArray (items : list Json)
| JObject (fields : list (string * Json)).
#[local] Set Elimination Schemes.

Module Recommendation.
Record t := mk {
  id : string;
  action : string;
  target : string;
  parameters : list (string * Json);
  benefit_estimate : string
}.
End Recommendation.

Module OutputData.
Record t := mk {
  timestamp : string;
  insights : Insights.t;
  anomalies : list Anomaly.t;
  recommendations : list Recommendation.t;
  service_status_summary : ServiceStatusSummary.t
}.
End OutputData.

#[global] Instance Severity_eq_dec : EqDecision Severity.
Proof. solve_decision. Defined.

(** The string of a [Literal] value. *)
Definition severity_str (s : Severity) : string :=
  match s with
  | low => "low"
  | medium => "medium"
  | high => "high"
  end.

(** The string of the line feed. *)
Definition newline : string := String (Ascii.ascii_of_nat 10) "".

(** [sep.join(xs)] *)
Fixpoint join (sep : string) (xs : list string) : string :=
  match xs with
  | [] => ""
  | [x] => x
  | x :: xs' => x +:+ sep +:+ join sep xs'
  end.

(** [s.endswith(suffix)] *)
Fixpoint endswith (s suffix : string) : bool :=
  if String.eqb s suffix then true
  else match s with
       | "" => false
       | String _ s' => endswith s' suffix
       end.

(** [needle in s] *)
Fixpoint contains (s needle : string) : bool :=
  if String.prefix needle s then true
  else match s with
       | "" => false
       | String _ s' => contains s' needle
       end.

(** *** [llm_enrichment_node]: the context for the model *)

(** One line of [anomaly_summary]; [float_str] is the text of a float in an
    f-string. *)
Definition anomaly_line (float_str : Q → string) (a : Anomaly.t) : string :=
  "- " +:+ Anomaly.metric a +:+ ": " +:+ float_str (Anomaly.value a) +:+
  " (threshold: " +:+ float_str (Anomaly.threshold a) +:+
  ", severity: " +:+ severity_str (Anomaly.severity a) +:+ ")".

Definition anomaly_summary (float_str : Q → string) (anomalies : list Anomaly.t) : string :=
  join newline (anomaly_line float_str <$> anomalies).

(** [anomaly_summary if anomaly_summary else "No critical anomalies"]: the
    empty string is the only false one. *)
Definition anomalies_section (float_str : Q → string) (anomalies : list Anomaly.t) : string :=
  let summary := anomaly_summary float_str anomalies in
  if String.eqb summary "" then "No critical anomalies" else summary.

Definition user_prompt (float_str : Q → string) (anomalies : list Anomaly.t)
    (insights : Insights.t) : string :=
  "Infrastructure analysis summary:" +:+ newline +:+ newline +:+
  "Anomalies detected:" +:+ newline +:+
  anomalies_section float_str anomalies +:+ newline +:+ newline +:+
  "Key metrics:" +:+ newline +:+
  "- Average latency: " +:+ float_str (Insights.average_latency_ms insights) +:+ "ms"
    +:+ newline +:+
  "- Max CPU: " +:+ float_str (Insights.max_cpu_usage insights) +:+ "%" +:+ newline +:+
  "- Max memory: " +:+ float_str (Insights.max_memory_usage insights) +:+ "%"
    +:+ newline +:+
  "- Error rate: " +:+ float_str (Insights.error_rate insights * 100)%Q +:+ "%"
    +:+ newline +:+ newline +:+
  "Generate optimization recommendations in JSON format.".

(** *** [output_node]: the report *)

(** The [OutputData] that [output_node] builds; [utcnow_isoformat] is the
    text of [datetime.utcnow().isoformat()]. *)
Definition output_data (utcnow_isoformat : string) (insights : Insights.t)
    (anomalies : list Anomaly.t) (recommendations : list Recommendation.t)
    (summary : ServiceStatusSummary.t) : OutputData.t :=
  {| OutputData.timestamp := utcnow_isoformat +:+ "Z";
     OutputData.insights := insights;
     OutputData.anomalies := anomalies;
     OutputData.recommendations := recommendations;
     OutputData.service_status_summary := summary |}.

(** *** [validate_output]: the checks on the parsed report *)

Definition checks (output : OutputData.t) : list (string * bool) :=
  [("timestamp_format",
    endswith (OutputData.timestamp output) "Z" && contains (OutputData.timestamp output) "T");
   ("insights_complete",
    forallb id
      [Qle_bool 0 (Insights.average_latency_ms (OutputData.insights output));
       Qle_bool 0 (Insights.max_cpu_usage (OutputData.insights output));
       Qle_bool 0 (Insights.max_memory_usage (OutputData.insights output));
       Qle_bool 0 (Insights.error_rate (OutputData.insights output));
       (0 <=? Insights.uptime_seconds (OutputData.insights output))%Z]);
   ("anomalies_valid",
    forallb (λ a, bool_decide (Anomaly.severity a ∈ [low; medium; high]))
      (OutputData.anomalies output));
   ("recommendations_valid",
    forallb (λ r, (0 <? String.length (Recommendation.id r))%nat &&
                  (0 <? String.length (Recommendation.action r))%nat)
      (OutputData.recommendations output));
   ("service_status_valid", true && true && true)].

(** [all(checks.values())], the value that [validate_output] returns when
    the report was read and parsed. *)
Definition validate_output (output : OutputData.t) : bool :=
  forallb snd (checks output).

(** * The insights, for any mean and rounding function

    [compute_insights] with [statistics.mean] and [round] as parameters, and
    the two properties of these functions that the statements on the
    averaged and rounded fields rest on. *)

Definition compute_insights_with (mean_f : list Q → result Q)
    (round_f : Q → positive → Q) (data : list InputData.t) : result Insights.t :=
  let latencies := InputData.latency_ms <$> data in
  let cpu_usages := InputData.cpu_usage <$> data in
  let memory_usages := InputData.memory_usage <$> data in
  let error_rates := InputData.error_rate <$> data in
  mean_latency <- mean_f latencies ;;
  max_cpu <- py_max cpu_usages ;;
  max_memory <- py_max memory_usages ;;
  mean_error <- mean_f error_rates ;;
  last_entry <- last_item data ;;
  ret {| Insights.average_latency_ms := round_f mean_latency 2%positive;
         Insights.max_cpu_usage := round_f max_cpu 2%positive;
         Insights.max_memory_usage := round_f max_memory 2%positive;
         Insights.error_rate := round_f mean_error 4%positive;
         Insights.uptime_seconds := InputData.uptime_seconds last_entry |}.

(** [mean_f] raises [StatisticsError] on no data and otherwise returns a
    number between the least and the greatest element. *)
Definition averages (mean_f : list Q → result Q) : Prop :=
  mean_f [] = raise StatisticsError ∧
  ∀ xs, xs ≠ [] →
    ∃ m, mean_f xs = inr m ∧
         ∀ lo hi, (∀ x, x ∈ xs → (lo <= x <= hi)%Q) → (lo <= m <= hi)%Q.

(** [round_f] is monotone in the number it rounds. *)
Definition rounds_monotonically (round_f : Q → positive → Q) : Prop :=
  ∀ n x y, (x <= y)%Q → (round_f x n <= round_f y n)%Q.

(** * Properties *)

(** ** The expectations of test_pipeline.py *)

Example test_cpu_threshold_detection :
  filter (λ a, Anomaly.metric a = "cpu_usage")
    (detect_anomalies [snapshot 95 60 100 3 0.01 10000 60 all_online]) =
  [cpu_high (snapshot 95 60 100 3 0.01 10000 60 all_online)].
Proof. reflexivity. Qed.

Example test_no_anomalies_when_within_thresholds :
  detect_anomalies [snapshot 50 60 100 3 0.01 10000 60 all_online] = [].
Proof. reflexivity. Qed.

Example test_insights_aggregation :
  compute_insights [snapshot 80 70 200 3 0.02 10000 60 all_online;
                    snapshot 90 75 150 3 0.03 11800 60 all_online] =
  inr {| Insights.average_latency_ms := 175;
         Insights.max_cpu_usage := 90;
         Insights.max_memory_usage := 75;
         Insights.error_rate := 1 # 40;
         Insights.uptime_seconds := 11800 |}.
Proof. reflexivity. Qed.

Example test_service_status_prioritization :
  service_status_summary conflicting_reports =
  inr {| ServiceStatusSummary.online := [];
         ServiceStatusSummary.degraded := ["api_gateway"; "cache"];
         ServiceStatusSummary.offline := ["database"] |}.
Proof. vm_compute. reflexivity. Qed.

(** The uptime is that of the last snapshot, here neither the greatest nor
    the sum. *)
Example uptime_not_the_greatest :
  (i <- compute_insights [snapshot 50 60 100 3 0.01 10000 60 all_online;
                          snapshot 50 60 100 3 0.01 50000 60 all_online;
                          snapshot 50 60 100 3 0.01 11800 60 all_online] ;;
   ret (Insights.uptime_seconds i)) = inr 11800%Z.
Proof. reflexivity. Qed.

(** ** Comparison of floats *)

Lemma Qgtb_lt (x y : Q) : Qgtb x y = true ↔ (y < x)%Q.
Proof.
  unfold Qgtb. rewrite negb_true_iff, <- not_true_iff_false, Qle_bool_iff.
  split; [apply Qnot_le_lt | apply Qlt_not_le].
Qed.

Lemma Qgtb_le (x y : Q) : Qgtb x y = false ↔ (x <= y)%Q.
Proof. unfold Qgtb. rewrite negb_false_iff. apply Qle_bool_iff. Qed.

(** ** The dictionary *)

Section dict.
Implicit Types (k : string) (a : Anomaly.t) (m : anomaly_dict).

Lemma dict_get_set_eq k a m : dict_get k (dict_set k a m) = Some a.
Proof.
  induction m as [|[k' a'] m IH]; simpl.
  - by rewrite decide_True.
  - destruct (decide (k' = k)) as [->|Hne]; simpl.
    + by rewrite decide_True.
    + by rewrite decide_False.
Qed.

Lemma dict_get_set_ne k k' a m :
  k ≠ k' → dict_get k' (dict_set k a m) = dict_get k' m.
Proof.
  intros Hne. induction m as [|[k0 a0] m IH]; simpl.
  - by rewrite decide_False.
  - destruct (decide (k0 = k)) as [->|Hne0]; simpl.
    + by rewrite !decide_False.
    + by rewrite IH.
Qed.

Lemma dict_set_elem_of k a m (p : string * Anomaly.t) :
  p ∈ dict_set k a m → p = (k, a) ∨ p ∈ m.
Proof.
  induction m as [|[k' a'] m IH]; simpl.
  - intros ->%list_elem_of_singleton. by left.
  - destruct (decide (k' = k)) as [->|Hne].
    + intros [->| ?]%elem_of_cons; [by left | right; by apply elem_of_cons; right].
    + intros [->| Hin]%elem_of_cons; [right; by apply elem_of_cons; left |].
      destruct (IH Hin); [by left | right; by apply elem_of_cons; right].
Qed.

Lemma dict_set_keys k a m :
  (dict_set k a m).*1 = if dict_in k m then m.*1 else m.*1 ++ [k].
Proof.
  unfold dict_in. induction m as [|[k' a'] m IH]; [done|].
  cbn [dict_set dict_get]. destruct (decide (k' = k)) as [->|Hne]; [done|].
  rewrite !fmap_cons, IH. by destruct (dict_get k m).
Qed.

Lemma dict_get_None k m : dict_get k m = None ↔ k ∉ (m.*1).
Proof.
  induction m as [|[k' a'] m IH]; simpl.
  - split; [intros _; apply not_elem_of_nil | done].
  - rewrite not_elem_of_cons. destruct (decide (k' = k)) as [->|Hne].
    + split; [done | by intros [? _]].
    + rewrite IH. split; [by intros ?; split | by intros [_ ?]].
Qed.

Lemma dict_set_NoDup k a m : NoDup m.*1 → NoDup (dict_set k a m).*1.
Proof.
  intros Hm. rewrite dict_set_keys. unfold dict_in.
  destruct (dict_get k m) eqn:Hget; [done|].
  apply NoDup_app. split_and!; [done | | apply NoDup_singleton].
  intros x Hx ->%list_elem_of_singleton. by apply dict_get_None in Hget.
Qed.

Lemma dict_get_elem_of k a m :
  NoDup m.*1 → (k, a) ∈ m ↔ dict_get k m = Some a.
Proof.
  induction m as [|[k' a'] m IH]; simpl.
  - intros _. split; [by intros ?%elem_of_nil | done].
  - intros [Hk' Hm]%NoDup_cons. rewrite elem_of_cons.
    destruct (decide (k' = k)) as [->|Hne].
    + split; [|intros [= ->]; by left].
      intros [[= ->]|Hin]; [done|].
      destruct Hk'. apply list_elem_of_fmap. by exists (k, a).
    + rewrite <- (IH Hm). split; [|by right].
      by intros [[= -> ->]|?].
Qed.

End dict.

(** ** The scan, rule by rule *)

Lemma scan_entry_rules m e :
  scan_entry m e =
  gauge_rule IoWait e (gauge_rule Temperature e (gauge_rule ErrorRate e
    (gauge_rule Latency e (gauge_rule Memory e (cpu_rule e m))))).
Proof. reflexivity. Qed.

Lemma cpu_rule_get_eq e m :
  dict_get "cpu_usage" (cpu_rule e m) = cpu_slot e (dict_get "cpu_usage" m).
Proof.
  unfold cpu_rule, cpu_slot, absent_or_greater, dict_in.
  repeat case_match; simplify_eq/=; rewrite ?dict_get_set_eq; congruence.
Qed.

Lemma cpu_rule_get_ne e m k :
  k ≠ "cpu_usage" → dict_get k (cpu_rule e m) = dict_get k m.
Proof.
  intros Hk. unfold cpu_rule.
  repeat case_match; rewrite ?dict_get_set_ne; done.
Qed.

Lemma gauge_rule_get_eq g e m :
  dict_get (key g) (gauge_rule g e m) = gauge_slot g e (dict_get (key g) m).
Proof.
  unfold gauge_rule, gauge_slot, absent_or_greater.
  repeat case_match; simpl; rewrite ?dict_get_set_eq; congruence.
Qed.

Lemma gauge_rule_get_ne g e m k :
  k ≠ key g → dict_get k (gauge_rule g e m) = dict_get k m.
Proof.
  intros Hk. unfold gauge_rule.
  repeat case_match; rewrite ?dict_get_set_ne; done.
Qed.

Lemma scan_entry_get_cpu m e :
  dict_get "cpu_usage" (scan_entry m e) = cpu_slot e (dict_get "cpu_usage" m).
Proof.
  rewrite scan_entry_rules, !gauge_rule_get_ne by done. apply cpu_rule_get_eq.
Qed.

Lemma scan_entry_get_gauge g m e :
  dict_get (key g) (scan_entry m e) = gauge_slot g e (dict_get (key g) m).
Proof.
  rewrite scan_entry_rules.
  destruct g;
    rewrite ?(gauge_rule_get_ne IoWait), ?(gauge_rule_get_ne Temperature),
      ?(gauge_rule_get_ne ErrorRate), ?(gauge_rule_get_ne Latency) by done;
    rewrite gauge_rule_get_eq; f_equal;
    rewrite ?(gauge_rule_get_ne Temperature), ?(gauge_rule_get_ne ErrorRate),
      ?(gauge_rule_get_ne Latency), ?(gauge_rule_get_ne Memory) by done;
    by rewrite cpu_rule_get_ne.
Qed.

Lemma scan_from_get_cpu data m :
  dict_get "cpu_usage" (scan_from m data) =
  fold_left (λ o e, cpu_slot e o) data (dict_get "cpu_usage" m).
Proof.
  unfold scan_from. revert m. induction data as [|e data IH]; intros m; [done|].
  simpl. by rewrite IH, scan_entry_get_cpu.
Qed.

Lemma scan_from_get_gauge g data m :
  dict_get (key g) (scan_from m data) =
  fold_left (λ o e, gauge_slot g e o) data (dict_get (key g) m).
Proof.
  unfold scan_from. revert m. induction data as [|e data IH]; intros m; [done|].
  simpl. by rewrite IH, scan_entry_get_gauge.
Qed.

(** ** What the dictionary can contain *)

Lemma cpu_rule_elem_of p e m : p ∈ cpu_rule e m → p ∈ m ∨ p ∈ emits e.
Proof.
  unfold cpu_rule, emits. repeat case_match; auto.
  all: intros [->|?]%dict_set_elem_of; auto; right; set_solver.
Qed.

Lemma gauge_rule_elem_of g p e m : p ∈ gauge_rule g e m → p ∈ m ∨ p ∈ emits e.
Proof.
  unfold gauge_rule, emits. repeat case_match; auto.
  intros [->|?]%dict_set_elem_of; auto. right. destruct g; set_solver.
Qed.

Lemma scan_entry_elem_of p m e : p ∈ scan_entry m e → p ∈ m ∨ p ∈ emits e.
Proof.
  rewrite scan_entry_rules. intros H.
  repeat (apply gauge_rule_elem_of in H as [H|?]; [|by right]).
  by apply cpu_rule_elem_of.
Qed.

Lemma scan_from_elem_of p data m :
  p ∈ scan_from m data → p ∈ m ∨ ∃ e, e ∈ data ∧ p ∈ emits e.
Proof.
  unfold scan_from. revert m. induction data as [|e data IH]; intros m; simpl; [by left|].
  intros [[?|?]%scan_entry_elem_of|(e' & ? & ?)]%IH; [by left | right..].
  - exists e. split; [by left | done].
  - exists e'. split; [by right | done].
Qed.

Lemma emits_keyed e k a : (k, a) ∈ emits e → Anomaly.metric a = k.
Proof.
  unfold emits. rewrite !elem_of_cons, elem_of_nil. intros H.
  repeat (destruct H as [H|H]; [by simplify_eq|]). done.
Qed.

Lemma emits_severity e k a : (k, a) ∈ emits e → Anomaly.severity a ≠ low.
Proof.
  unfold emits. rewrite !elem_of_cons, elem_of_nil. intros H.
  repeat (destruct H as [H|H]; [by simplify_eq|]). done.
Qed.

Lemma cpu_rule_NoDup e m : NoDup m.*1 → NoDup (cpu_rule e m).*1.
Proof. unfold cpu_rule. repeat case_match; auto using dict_set_NoDup. Qed.

Lemma gauge_rule_NoDup g e m : NoDup m.*1 → NoDup (gauge_rule g e m).*1.
Proof. unfold gauge_rule. repeat case_match; auto using dict_set_NoDup. Qed.

Lemma scan_entry_NoDup m e : NoDup m.*1 → NoDup (scan_entry m e).*1.
Proof.
  intros. rewrite scan_entry_rules.
  by repeat apply gauge_rule_NoDup; apply cpu_rule_NoDup.
Qed.

Lemma scan_from_NoDup data m : NoDup m.*1 → NoDup (scan_from m data).*1.
Proof.
  unfold scan_from. revert m.
  induction data as [|e data IH]; intros m Hm; simpl; auto using scan_entry_NoDup.
Qed.

Lemma scan_NoDup data : NoDup (scan data).*1.
Proof. apply scan_from_NoDup. apply NoDup_nil_2. Qed.

Lemma scan_elem_of k a data :
  (k, a) ∈ scan data → ∃ e, e ∈ data ∧ (k, a) ∈ emits e.
Proof. by intros [?%elem_of_nil|?]%scan_from_elem_of. Qed.

Lemma scan_keyed k a data : (k, a) ∈ scan data → Anomaly.metric a = k.
Proof. intros (e & _ & ?)%scan_elem_of. by eapply emits_keyed. Qed.

(** An anomaly of the output list is the content of the slot of its metric. *)
Lemma detect_anomalies_slot data a :
  a ∈ detect_anomalies data ↔ dict_get (Anomaly.metric a) (scan data) = Some a.
Proof.
  rewrite <- dict_get_elem_of by apply scan_NoDup.
  unfold detect_anomalies, dict_values. rewrite list_elem_of_fmap. split.
  - intros ([k a'] & -> & Hin). simpl.
    by rewrite (scan_keyed _ _ _ Hin).
  - intros Hin. by exists (Anomaly.metric a, a).
Qed.

Lemma detect_anomalies_metrics data :
  Anomaly.metric <$> detect_anomalies data = (scan data).*1.
Proof.
  unfold detect_anomalies, dict_values. rewrite <- list_fmap_compose.
  apply list_fmap_ext. intros i [k a] Hi. simpl.
  eapply scan_keyed, list_elem_of_lookup_2, Hi.
Qed.

(** At most one entry per metric name. *)
Lemma detect_anomalies_NoDup data : NoDup (Anomaly.metric <$> detect_anomalies data).
Proof. rewrite detect_anomalies_metrics. apply scan_NoDup. Qed.

(** ** The slot of a single-rule metric along the scan *)

Section gauge.
Variable g : Gauge.

Lemma gauge_slot_cases e o :
  (¬ breaches g e ∧ gauge_slot g e o = o) ∨
  (breaches g e ∧ o = None ∧ gauge_slot g e o = Some (anomaly_of g e)) ∨
  (breaches g e ∧ ∃ b, o = Some b ∧
     (((Anomaly.value b < reading g e)%Q ∧ gauge_slot g e o = Some (anomaly_of g e)) ∨
      ((reading g e <= Anomaly.value b)%Q ∧ gauge_slot g e o = o))).
Proof.
  unfold gauge_slot, breaches.
  destruct (Qgtb (reading g e) (limit g)) eqn:Hthr.
  - apply Qgtb_lt in Hthr. right. destruct o as [b|]; [right | left; done].
    split; [done|]. exists b. split; [done|].
    destruct (Qgtb (reading g e) (Anomaly.value b)) eqn:Hb.
    + left. by apply Qgtb_lt in Hb.
    + right. by apply Qgtb_le in Hb.
  - apply Qgtb_le in Hthr. left. split; [by apply Qle_not_lt | done].
Qed.

Lemma gauge_fold_None data o :
  fold_left (λ o e, gauge_slot g e o) data o = None ↔
  o = None ∧ ∀ e, e ∈ data → ¬ breaches g e.
Proof.
  revert o. induction data as [|e data IH]; intros o; simpl.
  - split; [|by intros [-> _]].
    intros ->. split; [done|]. by intros e ?%elem_of_nil.
  - rewrite IH. split.
    + intros [Ho Hdata].
      destruct (gauge_slot_cases e o) as [[Hnb Heq]|[(? & ? & Heq)|(? & b & -> & [[? Heq]|[? Heq]])]];
        rewrite Heq in Ho; try done.
      split; [done|]. by intros e' [->|?]%elem_of_cons; [|apply Hdata].
    + intros [-> Hdata]. split.
      * destruct (gauge_slot_cases e None) as [[_ ->]|[(Hb & _)|(Hb & _)]]; [done|..];
          (destruct (Hdata e); [by left | done]).
      * intros e' ?. apply Hdata. by right.
Qed.

Lemma gauge_fold_Some data o a :
  fold_left (λ o e, gauge_slot g e o) data o = Some a →
  (o = Some a ∨ ∃ e, e ∈ data ∧ breaches g e ∧ a = anomaly_of g e) ∧
  (∀ b, o = Some b → (Anomaly.value b <= Anomaly.value a)%Q) ∧
  (∀ e, e ∈ data → breaches g e → (reading g e <= Anomaly.value a)%Q).
Proof.
  revert o. induction data as [|e data IH]; intros o; simpl.
  - intros ->. split_and!; [by left | by intros b [= ->]; apply Qle_refl
                            | by intros e ?%elem_of_nil].
  - intros (Hsrc & Hold & Hnew)%IH.
    assert (Hsrc' : o = Some a ∨ ∃ e', e' ∈ e :: data ∧ breaches g e' ∧ a = anomaly_of g e').
    { destruct Hsrc as [Hsrc|(e' & ? & ? & ?)]; [|right; exists e'; by split; [right|]].
      destruct (gauge_slot_cases e o)
        as [[_ Heq]|[(? & _ & Heq)|(? & b & -> & [[_ Heq]|[_ Heq]])]];
        rewrite Heq in Hsrc; simplify_eq; auto;
        right; exists e; by split; [left|]. }
    split_and!; [done | |].
    + intros b ->.
      destruct (gauge_slot_cases e (Some b))
        as [[_ Heq]|[(? & ? & _)|(? & b' & [= <-] & [[Hlt Heq]|[_ Heq]])]];
        [by apply Hold; rewrite Heq | done | | by apply Hold; rewrite Heq].
      specialize (Hold _ Heq). simpl in Hold. lra.
    + intros e' [->|Hin]%elem_of_cons Hb; [|by apply Hnew].
      destruct (gauge_slot_cases e o)
        as [[? _]|[(_ & _ & Heq)|(_ & b & -> & [[_ Heq]|[Hle Heq]])]]; [done|..].
      * by apply (Hold _ Heq).
      * by apply (Hold _ Heq).
      * specialize (Hold _ Heq). lra.
Qed.

(** From the empty dictionary: the slot is filled exactly when some snapshot
    breaches the threshold, and it then holds the record of a breaching
    snapshot whose reading no breaching snapshot exceeds. *)
Lemma scan_gauge_filled data :
  is_Some (dict_get (key g) (scan data)) ↔ ∃ e, e ∈ data ∧ breaches g e.
Proof.
  unfold scan. rewrite scan_from_get_gauge. simpl.
  rewrite <- not_eq_None_Some, gauge_fold_None. split.
  - intros Hno. destruct (decide (Exists (λ e, Qgtb (reading g e) (limit g) = true) data))
      as [Hex|Hnex].
    + apply Exists_exists in Hex as (e & ? & ?%Qgtb_lt). by exists e.
    + destruct Hno. split; [done|]. intros e He Hb. apply Hnex, Exists_exists.
      exists e. split; [done|]. by apply Qgtb_lt.
  - intros (e & He & Hb) [_ Hno]. by apply (Hno e).
Qed.

Lemma scan_gauge_worst data a :
  dict_get (key g) (scan data) = Some a →
  (∃ e, e ∈ data ∧ breaches g e ∧ a = anomaly_of g e) ∧
  (∀ e, e ∈ data → breaches g e → (reading g e <= Anomaly.value a)%Q).
Proof.
  unfold scan. rewrite scan_from_get_gauge. simpl.
  intros ([?|?] & _ & ?)%gauge_fold_Some; done.
Qed.

End gauge.

(** ** The [cpu_usage] slot along the scan *)

Lemma cpu_slot_high_stays e a :
  Anomaly.severity a = high →
  ∃ a', cpu_slot e (Some a) = Some a' ∧ Anomaly.severity a' = high.
Proof.
  intros Ha. unfold cpu_slot. repeat case_match; eauto.
Qed.

Lemma cpu_slot_below_high e a :
  (InputData.cpu_usage e <= 85)%Q → cpu_slot e (Some a) = Some a.
Proof.
  intros Hle%Qgtb_le. unfold cpu_slot. rewrite Hle. by case_match.
Qed.

Lemma cpu_fold_high_stays data a :
  Anomaly.severity a = high →
  ∃ a', fold_left (λ o e, cpu_slot e o) data (Some a) = Some a' ∧
        Anomaly.severity a' = high.
Proof.
  revert a. induction data as [|e data IH]; intros a Ha; simpl; [eauto|].
  destruct (cpu_slot_high_stays e a Ha) as (a' & -> & Ha'). by apply IH.
Qed.

Lemma scan_app earlier later : scan (earlier ++ later) = scan_from (scan earlier) later.
Proof. apply fold_left_app. Qed.

Lemma elem_of_snoc {A} (x y : A) (l : list A) : x ∈ l ++ [y] ↔ x ∈ l ∨ x = y.
Proof. by rewrite elem_of_app, list_elem_of_singleton. Qed.

Lemma cpu_slot_after_step seen e o :
  cpu_slot_after seen o → cpu_slot_after (seen ++ [e]) (cpu_slot e o).
Proof.
  intros Hinv. unfold cpu_slot.
  destruct (Qgtb (InputData.cpu_usage e) 85) eqn:Hhigh;
    [apply Qgtb_lt in Hhigh | apply Qgtb_le in Hhigh;
     destruct (Qgtb (InputData.cpu_usage e) 75) eqn:Hmed;
       [apply Qgtb_lt in Hmed | apply Qgtb_le in Hmed]].
  - (* above 85 *)
    destruct o as [b|]; simpl in Hinv.
    + destruct (Qgtb (InputData.cpu_usage e) (Anomaly.value b)) eqn:Hb;
        [apply Qgtb_lt in Hb | apply Qgtb_le in Hb].
      * left. split_and!; [done | exists e; split; [set_solver | done] |].
        intros e' [He'| ->]%elem_of_snoc; simpl; [|lra].
        destruct Hinv as [(_ & _ & Hmax)|(Hmax & _)]; specialize (Hmax e' He'); lra.
      * destruct Hinv as [(Hb85 & (e0 & ? & ->) & Hmax)|(Hmax & bf & e1 & af & -> & _ & _ & ->)].
        -- left. split_and!; [done | exists e0; split; [set_solver | done] |].
           intros e' [He'| ->]%elem_of_snoc; [by apply Hmax | done].
        -- specialize (Hmax e1 ltac:(set_solver)). simpl in Hb. lra.
    + left. split_and!; [done | exists e; split; [set_solver | done] |].
      intros e' [He'| ->]%elem_of_snoc; simpl; [|lra].
      specialize (Hinv e' He'). lra.
  - (* above 75, at most 85 *)
    destruct o as [b|]; simpl in Hinv.
    + destruct Hinv as [(Hb85 & (e0 & ? & ->) & Hmax)|(Hmax & bf & e1 & af & -> & Hbf & He1 & ->)].
      * left. split_and!; [done | exists e0; split; [set_solver | done] |].
        intros e' [He'| ->]%elem_of_snoc; [by apply Hmax | simpl in *; lra].
      * right. split.
        -- intros e' [He'| ->]%elem_of_snoc; [by apply Hmax | done].
        -- exists bf, e1, (af ++ [e]). by rewrite <- app_assoc.
    + right. split.
      * intros e' [He'| ->]%elem_of_snoc; [|done].
        specialize (Hinv e' He'). lra.
      * by exists seen, e, [].
  - (* at most 75 *)
    destruct o as [b|]; simpl in Hinv.
    + destruct Hinv as [(Hb85 & (e0 & ? & ->) & Hmax)|(Hmax & bf & e1 & af & -> & Hbf & He1 & ->)].
      * left. split_and!; [done | exists e0; split; [set_solver | done] |].
        intros e' [He'| ->]%elem_of_snoc; [by apply Hmax | simpl in *; lra].
      * right. split.
        -- intros e' [He'| ->]%elem_of_snoc; [by apply Hmax | lra].
        -- exists bf, e1, (af ++ [e]). by rewrite <- app_assoc.
    + intros e' [He'| ->]%elem_of_snoc; [by apply Hinv | done].
Qed.

(** The [cpu_usage] slot after the whole scan. *)
Lemma scan_cpu_slot data : cpu_slot_after data (dict_get "cpu_usage" (scan data)).
Proof.
  induction data as [|e data IH] using rev_ind.
  - by intros e ?%elem_of_nil.
  - rewrite scan_app, scan_from_get_cpu. by apply cpu_slot_after_step.
Qed.

Lemma cpu_entry_slot data a :
  a ∈ detect_anomalies data → Anomaly.metric a = "cpu_usage" →
  cpu_slot_after data (Some a).
Proof.
  intros Hin%detect_anomalies_slot Hk. rewrite Hk in Hin.
  rewrite <- Hin. apply scan_cpu_slot.
Qed.

(** ** Statements about the anomaly detector *)

(** C1, on the code: two snapshots whose [cpu_usage], 78 then 80, both lie
    between the medium and the high threshold.  The detector keeps the
    first one: the [cpu_usage] entry has value 78, although the second
    snapshot breaches the medium threshold with the greater value 80. *)
Theorem cpu_medium_keeps_first_breach :
  let data := [quiet 78; quiet 80] in
  detect_anomalies data = [cpu_medium (quiet 78)] ∧
  Anomaly.value (cpu_medium (quiet 78)) = 78%Q ∧
  quiet 80 ∈ data ∧
  (75 < InputData.cpu_usage (quiet 80))%Q ∧
  (Anomaly.value (cpu_medium (quiet 78)) < InputData.cpu_usage (quiet 80))%Q ∧
  ¬ (∀ data a, a ∈ detect_anomalies data → Anomaly.metric a = "cpu_usage" →
               ∀ e, e ∈ data → (75 < InputData.cpu_usage e)%Q →
                    (InputData.cpu_usage e <= Anomaly.value a)%Q).
Proof.
  assert (quiet 80 ∈ [quiet 78; quiet 80]) as Hin.
  { apply elem_of_cons. right. apply elem_of_cons. by left. }
  split_and!; [reflexivity | reflexivity | done | reflexivity | reflexivity |].
  intros Hmax.
  specialize (Hmax [quiet 78; quiet 80] (cpu_medium (quiet 78))).
  assert (cpu_medium (quiet 78) ∈ detect_anomalies [quiet 78; quiet 80]) as Ha.
  { by apply detect_anomalies_slot. }
  assert (80 <= 78)%Q as Hle; [|by apply Hle].
  apply (Hmax Ha eq_refl (quiet 80) Hin). reflexivity.
Qed.

(** For each of the five metrics with a single rule, the output list has an
    entry exactly when some snapshot exceeds the high threshold, and the
    value of that entry is the greatest of the values that exceed it. *)
Lemma gauge_entry_is_worst g data a :
  a ∈ detect_anomalies data → Anomaly.metric a = key g →
  (∃ e, e ∈ data ∧ breaches g e ∧ Anomaly.value a = reading g e) ∧
  (∀ e, e ∈ data → breaches g e → (reading g e <= Anomaly.value a)%Q).
Proof.
  intros Hin%detect_anomalies_slot Hk. rewrite Hk in Hin.
  apply scan_gauge_worst in Hin as [(e & ? & ? & ->) Hmax].
  split; [by exists e | done].
Qed.

Lemma gauge_entry_exists g data :
  (∃ a, a ∈ detect_anomalies data ∧ Anomaly.metric a = key g) ↔
  ∃ e, e ∈ data ∧ breaches g e.
Proof.
  rewrite <- scan_gauge_filled. split.
  - intros (a & Hin%detect_anomalies_slot & Hk). rewrite Hk in Hin. by exists a.
  - intros [a Ha]. exists a.
    assert (Anomaly.metric a = key g) as Hk.
    { eapply scan_keyed, dict_get_elem_of; [apply scan_NoDup | done]. }
    split; [|done]. apply detect_anomalies_slot. by rewrite Hk.
Qed.

(** C5: an [io_wait] anomaly is recorded exactly when the [io_wait] of some
    snapshot is strictly greater than 10, and every recorded [io_wait]
    anomaly has severity [medium] and threshold 10. *)
Theorem io_wait_anomaly data :
  ((∃ a, a ∈ detect_anomalies data ∧ Anomaly.metric a = "io_wait") ↔
   ∃ e, e ∈ data ∧ (10 < InputData.io_wait e)%Q) ∧
  (∀ a, a ∈ detect_anomalies data → Anomaly.metric a = "io_wait" →
        Anomaly.severity a = medium ∧ Anomaly.severity a ≠ high ∧
        Anomaly.threshold a = 10%Q).
Proof.
  split; [apply (gauge_entry_exists IoWait)|].
  intros a Hin%detect_anomalies_slot Hk. rewrite Hk in Hin.
  by apply (scan_gauge_worst IoWait) in Hin as [(e & _ & _ & ->) _].
Qed.

Lemma io_wait_anomaly_witness :
  Anomaly.severity (anomaly_of IoWait six_breaches) = medium ∧
  Anomaly.severity (anomaly_of IoWait six_breaches) ≠ high ∧
  Anomaly.threshold (anomaly_of IoWait six_breaches) = 10%Q.
Proof.
  apply (proj2 (io_wait_anomaly [six_breaches])); [|reflexivity].
  apply detect_anomalies_slot. reflexivity.
Defined.

(** C6: once the [cpu_usage] slot holds a record of severity [high], it
    holds a record of severity [high], never [medium], after any further
    snapshots; and a snapshot that comes later still, with [cpu_usage] above
    75 and at most 85, leaves the stored record as it is. *)
Theorem cpu_high_not_displaced earlier later a :
  dict_get "cpu_usage" (scan earlier) = Some a →
  Anomaly.severity a = high →
  ∃ a', dict_get "cpu_usage" (scan (earlier ++ later)) = Some a' ∧
        Anomaly.severity a' = high ∧ Anomaly.severity a' ≠ medium ∧
        ∀ e, (75 < InputData.cpu_usage e)%Q → (InputData.cpu_usage e <= 85)%Q →
             dict_get "cpu_usage" (scan ((earlier ++ later) ++ [e])) = Some a'.
Proof.
  intros Hslot Ha.
  destruct (cpu_fold_high_stays later a Ha) as (a' & Hfold & Ha').
  assert (dict_get "cpu_usage" (scan (earlier ++ later)) = Some a') as Hslot'.
  { by rewrite scan_app, scan_from_get_cpu, Hslot. }
  exists a'. split_and!; [done | done | by rewrite Ha' |].
  intros e _ Hle. rewrite scan_app, scan_from_get_cpu, Hslot'. simpl.
  by apply cpu_slot_below_high.
Qed.

Lemma cpu_high_not_displaced_witness :
  ∃ a', dict_get "cpu_usage" (scan ([quiet 90] ++ [quiet 80; quiet 95; quiet 76])) = Some a' ∧
        Anomaly.severity a' = high ∧ Anomaly.severity a' ≠ medium ∧
        ∀ e, (75 < InputData.cpu_usage e)%Q → (InputData.cpu_usage e <= 85)%Q →
             dict_get "cpu_usage"
               (scan (([quiet 90] ++ [quiet 80; quiet 95; quiet 76]) ++ [e])) = Some a'.
Proof.
  apply (cpu_high_not_displaced [quiet 90] [quiet 80; quiet 95; quiet 76]
           (cpu_high (quiet 90))); reflexivity.
Defined.

(** C9: every anomaly of the output has severity [medium] or [high]; [low]
    is never emitted. *)
Theorem severity_never_low data a :
  a ∈ detect_anomalies data →
  (Anomaly.severity a = medium ∨ Anomaly.severity a = high) ∧
  Anomaly.severity a ≠ low.
Proof.
  intros Hin%detect_anomalies_slot.
  apply dict_get_elem_of in Hin; [|apply scan_NoDup].
  apply scan_elem_of in Hin as (e & _ & Hin%emits_severity).
  split; [|done]. destruct (Anomaly.severity a); [done | by left | by right].
Qed.

Lemma severity_never_low_witness :
  (Anomaly.severity (anomaly_of IoWait six_breaches) = medium ∨
   Anomaly.severity (anomaly_of IoWait six_breaches) = high) ∧
  Anomaly.severity (anomaly_of IoWait six_breaches) ≠ low.
Proof.
  apply (severity_never_low [six_breaches] (anomaly_of IoWait six_breaches)).
  apply detect_anomalies_slot. reflexivity.
Defined.

(** C8: a single snapshot with [cpu_usage] 90, [memory_usage] 85,
    [latency_ms] 300, [io_wait] 12, [error_rate] 0.08 and
    [temperature_celsius] 80 yields exactly six anomalies, one per metric:
    all of severity [high], but for [io_wait], of severity [medium]. *)
Theorem six_anomalies e :
  (InputData.cpu_usage e == 90)%Q →
  (InputData.memory_usage e == 85)%Q →
  (InputData.latency_ms e == 300)%Q →
  (InputData.io_wait e == 12)%Q →
  (InputData.error_rate e == 0.08)%Q →
  (InputData.temperature_celsius e == 80)%Q →
  length (detect_anomalies [e]) = 6 ∧
  (λ a, (Anomaly.metric a, Anomaly.severity a)) <$> detect_anomalies [e] =
  [("cpu_usage", high); ("memory_usage", high); ("latency_ms", high);
   ("error_rate", high); ("temperature_celsius", high); ("io_wait", medium)].
Proof.
  intros Hcpu Hmem Hlat Hio Herr Htemp.
  assert (Qgtb (InputData.cpu_usage e) 85 = true) as Hc by (apply Qgtb_lt; lra).
  assert (∀ g, Qgtb (reading g e) (limit g) = true) as Hg.
  { intros g. apply Qgtb_lt. destruct g; simpl; lra. }
  unfold detect_anomalies, scan, scan_from. simpl fold_left.
  rewrite scan_entry_rules. unfold cpu_rule, gauge_rule.
  rewrite Hc, !Hg. by split.
Qed.

Lemma six_anomalies_witness :
  length (detect_anomalies [six_breaches]) = 6 ∧
  (λ a, (Anomaly.metric a, Anomaly.severity a)) <$> detect_anomalies [six_breaches] =
  [("cpu_usage", high); ("memory_usage", high); ("latency_ms", high);
   ("error_rate", high); ("temperature_celsius", high); ("io_wait", medium)].
Proof. apply (six_anomalies six_breaches); reflexivity. Defined.

(** ** Rounding and averaging *)

Lemma round_half_even_spec (x : Q) :
  let k := round_half_even x in
  let n := Qnum x in
  let d := Zpos (Qden x) in
  ((2 * k - 1) * d <= 2 * n <= (2 * k + 1) * d)%Z ∧
  (2 * n = (2 * k + 1) * d → Z.even k = true)%Z ∧
  (2 * n = (2 * k - 1) * d → Z.even k = true)%Z.
Proof.
  destruct x as [n d]. unfold round_half_even. simpl Qnum. simpl Qden.
  pose proof (Z.div_mod n (Zpos d) ltac:(lia)) as Hdm.
  pose proof (Z.mod_pos_bound n (Zpos d) ltac:(lia)) as Hr.
  set (f := (n / Zpos d)%Z) in *. set (r := (n mod Zpos d)%Z) in *.
  destruct (Z.compare_spec (2 * r) (Zpos d)) as [Heq|Hlt|Hgt];
    [destruct (Z.even f) eqn:Hev|..]; simpl.
  - split_and!; try done; nia.
  - split_and!; try nia. intros _.
    replace (f + 1)%Z with (Z.succ f) by lia.
    by rewrite Z.even_succ, <- Z.negb_even, Hev.
  - split_and!; nia.
  - split_and!; nia.
Qed.

(** Rounding is monotone. *)
Lemma round_half_even_mono (x y : Q) :
  (x <= y)%Q → (round_half_even x <= round_half_even y)%Z.
Proof.
  intros Hxy. unfold Qle in Hxy.
  destruct (round_half_even_spec x) as ([Hx1 Hx2] & Hxu & Hxd).
  destruct (round_half_even_spec y) as ([Hy1 Hy2] & Hyu & Hyd).
  set (k1 := round_half_even x) in *. set (k2 := round_half_even y) in *.
  set (n1 := Qnum x) in *. set (n2 := Qnum y) in *.
  set (d1 := Zpos (Qden x)) in *. set (d2 := Zpos (Qden y)) in *.
  assert (0 < d1)%Z by (unfold d1; lia). assert (0 < d2)%Z by (unfold d2; lia).
  destruct (Z_le_gt_dec k1 k2) as [|Hgt]; [done|]. exfalso.
  assert ((2 * k1 - 1) * (d1 * d2) <= (2 * k2 + 1) * (d1 * d2))%Z as Hle by nia.
  assert (k1 = k2 + 1)%Z as Hk by nia.
  assert (2 * n1 = (2 * k1 - 1) * d1)%Z as E1 by nia.
  assert (2 * n2 = (2 * k2 + 1) * d2)%Z as E2 by nia.
  specialize (Hxd E1). specialize (Hyu E2).
  rewrite Hk in Hxd. replace (k2 + 1)%Z with (Z.succ k2) in Hxd by lia.
  by rewrite Z.even_succ, <- Z.negb_even, Hyu in Hxd.
Qed.

Lemma Qsum_bounds (xs : list Q) (lo hi : Q) :
  (∀ x, x ∈ xs → (lo <= x <= hi)%Q) →
  (lo * inject_Z (Z.of_nat (length xs)) <= Qsum xs <= hi * inject_Z (Z.of_nat (length xs)))%Q.
Proof.
  induction xs as [|x xs IH]; intros Hxs.
  - change (lo * 0 <= 0 <= hi * 0)%Q. lra.
  - destruct IH as [IH1 IH2]; [intros y ?; apply Hxs; by right|].
    destruct (Hxs x) as [Hx1 Hx2]; [by left|].
    rewrite length_cons, Nat2Z.inj_succ. unfold Z.succ. rewrite inject_Z_plus.
    simpl Qsum. set (n := inject_Z (Z.of_nat (length xs))) in *.
    change (inject_Z 1) with 1%Q. lra.
Qed.

Lemma mean_inr (xs : list Q) :
  xs ≠ [] → mean xs = inr (Qsum xs / inject_Z (Z.of_nat (length xs)))%Q.
Proof. by destruct xs. Qed.

Lemma mean_bounds (xs : list Q) (lo hi : Q) :
  xs ≠ [] → (∀ x, x ∈ xs → (lo <= x <= hi)%Q) →
  let n := inject_Z (Z.of_nat (length xs)) in
  (Qsum xs / n * n == Qsum xs)%Q ∧ (lo <= Qsum xs / n <= hi)%Q.
Proof.
  intros Hne Hxs n. pose proof (Qsum_bounds xs lo hi Hxs) as [H1 H2]. fold n in H1, H2.
  assert (0 < n)%Q as Hn.
  { unfold n. rewrite <- (Zlt_Qlt 0). destruct xs; [done | simpl; lia]. }
  assert (Qsum xs / n * n == Qsum xs)%Q as Hm by (field; lra).
  split; [done|]. set (m := (Qsum xs / n)%Q) in *.
  split; [apply (Qmult_le_r _ _ n Hn) | apply (Qmult_le_r _ _ n Hn)]; lra.
Qed.

(** ** Insights *)

Lemma py_max_inr (xs : list Q) : xs ≠ [] → ∃ m, py_max xs = inr m.
Proof. destruct xs; [done | by eexists]. Qed.

Lemma last_item_inr {A} (xs : list A) x : last xs = Some x → last_item xs = inr x.
Proof. unfold last_item. by intros ->. Qed.

Lemma compute_insights_nil : compute_insights [] = inl StatisticsError.
Proof. reflexivity. Qed.

(** On a non-empty sequence the aggregation returns, with the rounded mean
    of the latencies and the uptime of the last snapshot. *)
Lemma compute_insights_inr data e :
  last data = Some e →
  ∃ i, compute_insights data = inr i ∧
       Insights.average_latency_ms i =
         py_round (Qsum (InputData.latency_ms <$> data)
                   / inject_Z (Z.of_nat (length (InputData.latency_ms <$> data)))) 2 ∧
       Insights.uptime_seconds i = InputData.uptime_seconds e.
Proof.
  intros Hlast. assert (data ≠ []) as Hne by (by intros ->).
  assert (∀ f : InputData.t → Q, f <$> data ≠ []) as Hf.
  { intros f Hnil%fmap_nil_inv. done. }
  unfold compute_insights.
  rewrite !mean_inr by apply Hf.
  destruct (py_max_inr (InputData.cpu_usage <$> data)) as [mc ->]; [apply Hf|].
  destruct (py_max_inr (InputData.memory_usage <$> data)) as [mm ->]; [apply Hf|].
  rewrite (last_item_inr _ _ Hlast). simpl. by eexists.
Qed.

Lemma compute_insights_inl data err :
  compute_insights data = inl err → data = [] ∧ err = StatisticsError.
Proof.
  destruct data as [|e data]; [by intros [= <-]|].
  destruct (last (e :: data)) as [e'|] eqn:Hlast.
  - destruct (compute_insights_inr _ _ Hlast) as (i & -> & _). done.
  - by apply last_None in Hlast.
Qed.

(** C7: the uptime of the insights is the uptime of the last snapshot,
    whatever the uptimes of the earlier ones. *)
Theorem uptime_of_last_snapshot data e :
  ∃ i, compute_insights (data ++ [e]) = inr i ∧
       Insights.uptime_seconds i = InputData.uptime_seconds e.
Proof.
  destruct (compute_insights_inr (data ++ [e]) e) as (i & Hi & _ & Hup).
  { apply last_snoc. }
  by exists i.
Qed.


(** ** Service status aggregation *)

Lemma for_each_app {A S} (body : S → A → result S) xs ys s :
  for_each body (xs ++ ys) s = (s' <- for_each body xs s ;; for_each body ys s').
Proof.
  revert s. induction xs as [|x xs IH]; intros s; simpl; [done|].
  destruct (body s x); simpl; [done | apply IH].
Qed.

(** The nested loops visit the items of [status_items] one after another. *)
Lemma for_each_track_entry data tr :
  for_each track_entry data tr = for_each tracker_add (status_items data) tr.
Proof.
  unfold status_items. revert tr. induction data as [|e data IH]; intros tr; [done|].
  rewrite bind_cons. rewrite for_each_app. cbn [for_each]. unfold track_entry at 1.
  destruct (for_each tracker_add _ tr); simpl; [done | apply IH].
Qed.

Lemma tracker_add_inr tr service status tr' :
  tracker_add tr (service, status) = inr tr' →
  recognised status ∧
  (∀ x, x ∈ Tracker.online tr' ↔ x ∈ Tracker.online tr ∨ (x = service ∧ status = "online")) ∧
  (∀ x, x ∈ Tracker.degraded tr' ↔
        x ∈ Tracker.degraded tr ∨ (x = service ∧ status = "degraded")) ∧
  (∀ x, x ∈ Tracker.offline tr' ↔ x ∈ Tracker.offline tr ∨ (x = service ∧ status = "offline")).
Proof.
  unfold tracker_add, recognised, ret, raise.
  repeat case_decide; intros [= <-]; subst; simpl;
    (split_and!; [auto | intros x; rewrite ?elem_of_union, ?elem_of_singleton..]);
    intuition congruence.
Qed.

Lemma tracker_add_inl tr service status err :
  tracker_add tr (service, status) = inl err → err = KeyError status ∧ ¬ recognised status.
Proof.
  unfold tracker_add, recognised, ret, raise.
  repeat case_decide; intros [= <-]. split; [done|]. by intros [?|[?|?]].
Qed.

Lemma track_items_inr items tr tr' :
  for_each tracker_add items tr = inr tr' →
  Forall (λ item, recognised item.2) items ∧
  (∀ x, x ∈ Tracker.online tr' ↔ x ∈ Tracker.online tr ∨ (x, "online") ∈ items) ∧
  (∀ x, x ∈ Tracker.degraded tr' ↔ x ∈ Tracker.degraded tr ∨ (x, "degraded") ∈ items) ∧
  (∀ x, x ∈ Tracker.offline tr' ↔ x ∈ Tracker.offline tr ∨ (x, "offline") ∈ items).
Proof.
  revert tr. induction items as [|[service status] items IH]; intros tr; cbn [for_each].
  - intros [= <-]. split_and!; [done | intros x; rewrite elem_of_nil..]; tauto.
  - destruct (tracker_add tr (service, status)) as [err|tr1] eqn:Hadd; simpl; [done|].
    apply tracker_add_inr in Hadd as (Hrec & Hon & Hdeg & Hoff).
    intros (Hall & Hon' & Hdeg' & Hoff')%IH.
    split_and!; [by constructor | intros x..].
    + rewrite Hon', Hon, elem_of_cons. split; [|intros [?|[[= -> ->]|?]]; auto].
      intros [[?|[-> ->]]|?]; auto.
    + rewrite Hdeg', Hdeg, elem_of_cons. split; [|intros [?|[[= -> ->]|?]]; auto].
      intros [[?|[-> ->]]|?]; auto.
    + rewrite Hoff', Hoff, elem_of_cons. split; [|intros [?|[[= -> ->]|?]]; auto].
      intros [[?|[-> ->]]|?]; auto.
Qed.

Lemma track_items_inl items tr err :
  for_each tracker_add items tr = inl err →
  ∃ service status, (service, status) ∈ items ∧ ¬ recognised status ∧ err = KeyError status.
Proof.
  revert tr. induction items as [|[service status] items IH]; intros tr;
    cbn [for_each]; [done|].
  destruct (tracker_add tr (service, status)) as [err'|tr1] eqn:Hadd; simpl.
  - intros [= <-]. apply tracker_add_inl in Hadd as [-> ?].
    exists service, status. split; [by left | done].
  - intros (service' & status' & ? & ? & ?)%IH.
    exists service', status'. split; [by right | done].
Qed.

Lemma discard_all_difference xs s : discard_all xs s = s ∖ xs.
Proof.
  unfold discard_all.
  apply (set_fold_ind_L (λ r X, r = s ∖ X)); [set_solver|].
  intros x X r _ ->. unfold discard. set_solver.
Qed.

Lemma sorted_elem_of s x : x ∈ sorted s ↔ x ∈ s.
Proof. unfold sorted. by rewrite merge_sort_Permutation, elem_of_elements. Qed.

Lemma sorted_NoDup s : NoDup (sorted s).
Proof. unfold sorted. rewrite merge_sort_Permutation. apply NoDup_elements. Qed.

Lemma sorted_Sorted s : Sorted String.le (sorted s).
Proof. apply (Sorted_merge_sort _). Qed.

Lemma resolve_statuses_elem_of tr :
  let s := resolve_statuses tr in
  (∀ x, x ∈ ServiceStatusSummary.offline s ↔ x ∈ Tracker.offline tr) ∧
  (∀ x, x ∈ ServiceStatusSummary.degraded s ↔
        x ∈ Tracker.degraded tr ∧ ¬ x ∈ Tracker.offline tr) ∧
  (∀ x, x ∈ ServiceStatusSummary.online s ↔
        x ∈ Tracker.online tr ∧ ¬ x ∈ Tracker.degraded tr ∧ ¬ x ∈ Tracker.offline tr).
Proof.
  assert (∀ X Y : gset string,
            (if bool_decide (X ≠ ∅) then discard_all X Y else Y) = Y ∖ X) as Hif.
  { intros X Y. case_bool_decide as HX; [apply discard_all_difference|].
    rewrite HX. set_solver. }
  assert (resolve_statuses tr =
          {| ServiceStatusSummary.online :=
               sorted (Tracker.online tr ∖ Tracker.offline tr
                       ∖ (Tracker.degraded tr ∖ Tracker.offline tr));
             ServiceStatusSummary.degraded :=
               sorted (Tracker.degraded tr ∖ Tracker.offline tr);
             ServiceStatusSummary.offline := sorted (Tracker.offline tr) |}) as ->.
  { unfold resolve_statuses. rewrite <- !Hif. by repeat case_bool_decide. }
  simpl. split_and!; intros x; rewrite sorted_elem_of; set_solver.
Qed.

Lemma reported_items data service status :
  reported data service status ↔ (service, status) ∈ status_items data.
Proof.
  unfold reported, status_items. rewrite list_elem_of_bind.
  split; intros (e & ? & ?); by exists e.
Qed.

Lemma summary_inr data s :
  service_status_summary data = inr s →
  statuses_recognised data ∧
  (∀ x, x ∈ ServiceStatusSummary.offline s ↔ reported data x "offline") ∧
  (∀ x, x ∈ ServiceStatusSummary.degraded s ↔
        reported data x "degraded" ∧ ¬ reported data x "offline") ∧
  (∀ x, x ∈ ServiceStatusSummary.online s ↔
        reported data x "online" ∧ ¬ reported data x "degraded" ∧
        ¬ reported data x "offline").
Proof.
  unfold service_status_summary. rewrite for_each_track_entry.
  destruct (for_each tracker_add _ _) as [err|tr] eqn:Htr; simpl; [done|].
  intros [= <-]. apply track_items_inr in Htr as (Hall & Hon & Hdeg & Hoff).
  destruct (resolve_statuses_elem_of tr) as (Hoff' & Hdeg' & Hon').
  simpl in Hon, Hdeg, Hoff.
  split_and!; [done | intros x..].
  - rewrite Hoff', Hoff, reported_items, elem_of_empty. tauto.
  - rewrite Hdeg', Hdeg, Hoff, !reported_items, !elem_of_empty. tauto.
  - rewrite Hon', Hon, Hdeg, Hoff, !reported_items, !elem_of_empty. tauto.
Qed.

Lemma summary_recognised data :
  statuses_recognised data → ∃ s, service_status_summary data = inr s.
Proof.
  intros Hall. unfold service_status_summary. rewrite for_each_track_entry.
  destruct (for_each tracker_add _ _) as [err|tr] eqn:Htr; simpl; [|by eexists].
  apply track_items_inl in Htr as (service & status & Hin & Hnot & _).
  unfold statuses_recognised in Hall. rewrite Forall_forall in Hall.
  destruct Hnot. by apply (Hall (service, status)).
Qed.

Lemma summary_inl data err :
  service_status_summary data = inl err →
  ∃ service status,
    reported data service status ∧ ¬ recognised status ∧ err = KeyError status.
Proof.
  unfold service_status_summary. rewrite for_each_track_entry.
  destruct (for_each tracker_add _ _) as [err'|tr] eqn:Htr; simpl; [|done].
  intros [= <-]. apply track_items_inl in Htr as (service & status & Hin & Hnot & ->).
  exists service, status. by rewrite reported_items.
Qed.

Lemma summary_Sorted data s :
  service_status_summary data = inr s →
  Sorted String.le (ServiceStatusSummary.online s) ∧
  Sorted String.le (ServiceStatusSummary.degraded s) ∧
  Sorted String.le (ServiceStatusSummary.offline s) ∧
  NoDup (ServiceStatusSummary.online s) ∧
  NoDup (ServiceStatusSummary.degraded s) ∧
  NoDup (ServiceStatusSummary.offline s).
Proof.
  unfold service_status_summary.
  destruct (for_each track_entry _ _) as [err|tr]; simpl; [done|].
  intros [= <-]. unfold resolve_statuses. simpl.
  split_and!; apply sorted_Sorted || apply sorted_NoDup.
Qed.

(** A service of the input is in one of the three lists, and no service is
    in the lists twice. *)
Lemma summary_partition data s :
  service_status_summary data = inr s →
  (∀ x, observed data x ↔ x ∈ all_services s) ∧ NoDup (all_services s).
Proof.
  intros Hs. destruct (summary_inr _ _ Hs) as (Hall & Hoff & Hdeg & Hon).
  destruct (summary_Sorted _ _ Hs) as (_ & _ & _ & Non & Ndeg & Noff).
  unfold all_services. split.
  - intros x. rewrite !elem_of_app, Hon, Hdeg, Hoff. split.
    + intros (status & Hrep).
      assert (recognised status) as Hrec.
      { unfold statuses_recognised in Hall. rewrite Forall_forall in Hall.
        apply reported_items in Hrep. apply (Hall _ Hrep). }
      destruct (decide (x ∈ ServiceStatusSummary.offline s)) as [Ho|Ho];
        rewrite Hoff in Ho; [tauto|].
      destruct (decide (x ∈ ServiceStatusSummary.degraded s)) as [Hd|Hd];
        rewrite Hdeg in Hd; [tauto|].
      destruct Hrec as [Hst|[Hst|Hst]]; rewrite Hst in Hrep; tauto.
    + intros [(? & _)|[(? & _)|?]]; by eexists.
  - apply NoDup_app. split_and!; [done| |apply NoDup_app; split_and!; [done| |done]].
    + intros x. rewrite elem_of_app, Hon, Hdeg, Hoff. tauto.
    + intros x. rewrite Hdeg, Hoff. tauto.
Qed.

(** C3: when the aggregation returns a summary, every service name observed
    in the input is in the three lists taken together, which have no name
    twice; a name is in [offline] if it was ever reported offline, else in
    [degraded] if it was ever reported degraded, else in [online]; and each
    list is sorted. *)
Theorem services_resolved data s :
  service_status_summary data = inr s →
  (∀ x, observed data x ↔ x ∈ all_services s) ∧
  NoDup (all_services s) ∧
  (∀ x, x ∈ ServiceStatusSummary.offline s ↔ reported data x "offline") ∧
  (∀ x, x ∈ ServiceStatusSummary.degraded s ↔
        reported data x "degraded" ∧ ¬ reported data x "offline") ∧
  (∀ x, x ∈ ServiceStatusSummary.online s ↔
        observed data x ∧ ¬ reported data x "degraded" ∧ ¬ reported data x "offline") ∧
  Sorted String.le (ServiceStatusSummary.online s) ∧
  Sorted String.le (ServiceStatusSummary.degraded s) ∧
  Sorted String.le (ServiceStatusSummary.offline s).
Proof.
  intros Hs. destruct (summary_inr _ _ Hs) as (Hall & Hoff & Hdeg & Hon).
  destruct (summary_Sorted _ _ Hs) as (Son & Sdeg & Soff & _).
  destruct (summary_partition _ _ Hs) as (Hobs & Hnodup).
  split_and!; try done.
  intros x. split.
  - rewrite Hon. intros (? & ? & ?). split; [by eexists | done].
  - intros (Hx & Hd & Ho). apply Hobs in Hx. unfold all_services in Hx.
    rewrite !elem_of_app, Hdeg, Hoff in Hx. tauto.
Qed.

Lemma services_resolved_witness :
  let s := {| ServiceStatusSummary.online := [];
              ServiceStatusSummary.degraded := ["api_gateway"; "cache"];
              ServiceStatusSummary.offline := ["database"] |} in
  (∀ x, observed conflicting_reports x ↔ x ∈ all_services s) ∧
  NoDup (all_services s) ∧
  (∀ x, x ∈ ServiceStatusSummary.offline s ↔ reported conflicting_reports x "offline") ∧
  (∀ x, x ∈ ServiceStatusSummary.degraded s ↔
        reported conflicting_reports x "degraded" ∧
        ¬ reported conflicting_reports x "offline") ∧
  (∀ x, x ∈ ServiceStatusSummary.online s ↔
        observed conflicting_reports x ∧ ¬ reported conflicting_reports x "degraded" ∧
        ¬ reported conflicting_reports x "offline") ∧
  Sorted String.le (ServiceStatusSummary.online s) ∧
  Sorted String.le (ServiceStatusSummary.degraded s) ∧
  Sorted String.le (ServiceStatusSummary.offline s).
Proof. apply (services_resolved conflicting_reports). vm_compute. reflexivity. Defined.

Lemma observed_fields data x :
  data ≠ [] → observed data x ↔ x ∈ ["database"; "api_gateway"; "cache"].
Proof.
  intros Hne. unfold observed, reported, ServiceStatus.model_dump_items. split.
  - intros (status & e & _ & Hin). revert Hin.
    rewrite !elem_of_cons, !elem_of_nil. intros [[= -> _]|[[= -> _]|[[= -> _]|[]]]]; auto.
  - destruct data as [|e data]; [done|]. intros Hx.
    assert (∃ status, (x, status) ∈
              [("database", ServiceStatus.database (InputData.service_status e));
               ("api_gateway", ServiceStatus.api_gateway (InputData.service_status e));
               ("cache", ServiceStatus.cache (InputData.service_status e))])
      as [status Hin].
    { revert Hx. rewrite !elem_of_cons, elem_of_nil. intros [->|[->|[->|[]]]].
      - eexists. by left.
      - eexists. right. by left.
      - eexists. right. right. by left. }
    exists status, e. split; [by left | done].
Qed.

(** C10: the service-status map of a snapshot has exactly the keys
    [database], [api_gateway] and [cache]; so the summary of a non-empty
    sequence lists exactly these three names, each once, and no other. *)
Theorem services_are_the_three_fields data s :
  data ≠ [] →
  service_status_summary data = inr s →
  (∀ e : InputData.t,
     (ServiceStatus.model_dump_items (InputData.service_status e)).*1 =
     ["database"; "api_gateway"; "cache"]) ∧
  (∀ x, x ∈ all_services s ↔ x ∈ ["api_gateway"; "cache"; "database"]) ∧
  all_services s ≡ₚ ["api_gateway"; "cache"; "database"].
Proof.
  intros Hne Hs. destruct (summary_partition _ _ Hs) as [Hobs Hnodup].
  assert (∀ x, x ∈ all_services s ↔ x ∈ ["api_gateway"; "cache"; "database"]) as Hiff.
  { intros x. rewrite <- Hobs, observed_fields by done.
    rewrite !elem_of_cons, !elem_of_nil. tauto. }
  split_and!; [done | done |].
  apply NoDup_Permutation; [done | | done].
  by apply (bool_decide_unpack (NoDup ["api_gateway"; "cache"; "database"])).
Qed.

Lemma services_are_the_three_fields_witness :
  let s := {| ServiceStatusSummary.online := [];
              ServiceStatusSummary.degraded := ["api_gateway"; "cache"];
              ServiceStatusSummary.offline := ["database"] |} in
  (∀ e : InputData.t,
     (ServiceStatus.model_dump_items (InputData.service_status e)).*1 =
     ["database"; "api_gateway"; "cache"]) ∧
  (∀ x, x ∈ all_services s ↔ x ∈ ["api_gateway"; "cache"; "database"]) ∧
  all_services s ≡ₚ ["api_gateway"; "cache"; "database"].
Proof.
  apply (services_are_the_three_fields conflicting_reports); [discriminate|].
  vm_compute. reflexivity.
Defined.

(** ** [analysis_node] *)

(** C2, as stated, fails: the sequence is not empty and the analysis fails,
    with the [KeyError] that the service-status aggregation raises on its
    own for a status that is not a key of [status_tracker]. *)
Lemma analysis_node_fails_on_unknown_status :
  [under_maintenance] ≠ [] ∧
  analysis_node (initial_state [under_maintenance]) = inl (KeyError "maintenance") ∧
  service_status_summary [under_maintenance] = inl (KeyError "maintenance") ∧
  ¬ (∀ state, GraphState.parsed_data state ≠ [] →
              ∃ state', analysis_node state = inr state').
Proof.
  assert (analysis_node (initial_state [under_maintenance]) = inl (KeyError "maintenance"))
    as Hfail by (vm_compute; reflexivity).
  split_and!; [done | done | vm_compute; reflexivity |].
  intros Hall. destruct (Hall (initial_state [under_maintenance])) as [state' Hok]; [done|].
  by rewrite Hfail in Hok.
Qed.

(** C2, amended: the analysis fails with [StatisticsError], the error of
    [statistics.mean] on no data, exactly when the sequence is empty; on a
    non-empty sequence whose status strings are all [online], [degraded] or
    [offline] it returns the new state; on a non-empty sequence with another
    status string it fails with the [KeyError] of the service-status
    aggregation, which on its own fails exactly on such sequences.  The
    anomaly detection is a total function. *)
Theorem analysis_node_outcome state :
  let data := GraphState.parsed_data state in
  (analysis_node state = inl StatisticsError ↔ data = []) ∧
  (data ≠ [] → statuses_recognised data →
   ∃ insights summary,
     compute_insights data = inr insights ∧
     service_status_summary data = inr summary ∧
     analysis_node state =
       inr {| GraphState.parsed_data := data;
              GraphState.insights := Some insights;
              GraphState.anomalies := detect_anomalies data;
              GraphState.service_status_summary := Some summary |}) ∧
  (data ≠ [] → ¬ statuses_recognised data →
   ∃ service status,
     reported data service status ∧ ¬ recognised status ∧
     analysis_node state = inl (KeyError status)) ∧
  ((∃ summary, service_status_summary data = inr summary) ↔ statuses_recognised data).
Proof.
  intros data. unfold analysis_node. fold data.
  assert ((∃ summary, service_status_summary data = inr summary) ↔
          statuses_recognised data) as Hiff.
  { split; [intros [s Hs]; by apply summary_inr in Hs as [? _] | apply summary_recognised]. }
  split_and!; [| | | done].
  - split; [|by intros ->].
    destruct (compute_insights data) as [err|i] eqn:Hi; simpl.
    + by apply compute_insights_inl in Hi as [? _].
    + destruct (service_status_summary data) as [err|s] eqn:Hs; simpl; [|done].
      by apply summary_inl in Hs as (? & ? & _ & _ & ->).
  - intros Hne Hrec.
    destruct (last data) as [e|] eqn:Hlast; [|by apply last_None in Hlast].
    destruct (compute_insights_inr data e Hlast) as (i & Hi & _).
    destruct (summary_recognised data Hrec) as [s Hs].
    exists i, s. by rewrite Hi, Hs.
  - intros Hne Hnot.
    destruct (last data) as [e|] eqn:Hlast; [|by apply last_None in Hlast].
    destruct (compute_insights_inr data e Hlast) as (i & -> & _). simpl.
    destruct (service_status_summary data) as [err|s] eqn:Hs; simpl.
    + apply summary_inl in Hs as (service & status & ? & ? & ->).
      by exists service, status.
    + destruct Hnot. apply Hiff. by exists s.
Qed.

Lemma analysis_node_outcome_witness :
  ∃ insights summary,
    compute_insights conflicting_reports = inr insights ∧
    service_status_summary conflicting_reports = inr summary ∧
    analysis_node (initial_state conflicting_reports) =
      inr {| GraphState.parsed_data := conflicting_reports;
             GraphState.insights := Some insights;
             GraphState.anomalies := detect_anomalies conflicting_reports;
             GraphState.service_status_summary := Some summary |}.
Proof.
  apply (proj1 (proj2 (analysis_node_outcome (initial_state conflicting_reports)))).
  - discriminate.
  - unfold statuses_recognised, recognised. simpl.
    repeat first [apply Forall_nil_2 | apply Forall_cons_2; [simpl; auto|]].
Defined.

(** * Further properties of the analysis *)

(** ** Snapshots within the thresholds *)

Lemma within_thresholds_gauge e g : within_thresholds e → (reading g e <= limit g)%Q.
Proof. intros (? & ? & ? & ? & ? & ?). by destruct g. Qed.

Lemma scan_entry_within m e : within_thresholds e → scan_entry m e = m.
Proof.
  intros He. rewrite scan_entry_rules.
  assert (∀ g m', gauge_rule g e m' = m') as Hg.
  { intros g m'. unfold gauge_rule.
    by rewrite (proj2 (Qgtb_le _ _) (within_thresholds_gauge e g He)). }
  rewrite !Hg. unfold cpu_rule. destruct He as (Hcpu & _).
  assert (InputData.cpu_usage e <= 85)%Q as Hcpu' by lra.
  by rewrite (proj2 (Qgtb_le _ _) Hcpu), (proj2 (Qgtb_le _ _) Hcpu').
Qed.

(** A snapshot on which no rule fires can be dropped from the sequence
    without changing the anomalies, wherever it stands. *)
Theorem snapshot_within_thresholds_ignored earlier e later :
  within_thresholds e →
  detect_anomalies (earlier ++ e :: later) = detect_anomalies (earlier ++ later).
Proof.
  intros He. unfold detect_anomalies. f_equal.
  rewrite !scan_app. unfold scan_from. simpl. by rewrite scan_entry_within.
Qed.

Lemma snapshot_within_thresholds_ignored_witness :
  detect_anomalies ([six_breaches] ++ quiet 50 :: [quiet 80]) =
  detect_anomalies ([six_breaches] ++ [quiet 80]).
Proof.
  apply (snapshot_within_thresholds_ignored [six_breaches] (quiet 50) [quiet 80]).
  unfold within_thresholds. simpl. repeat split; discriminate.
Defined.

Lemma scan_nil_within data : scan data = [] → ∀ e, e ∈ data → within_thresholds e.
Proof.
  intros Hnil e He.
  assert (∀ g, (reading g e <= limit g)%Q) as Hg.
  { intros g. apply Qnot_lt_le. intros Hb.
    assert (is_Some (dict_get (key g) (scan data))) as [a Ha].
    { apply scan_gauge_filled. by exists e. }
    by rewrite Hnil in Ha. }
  pose proof (scan_cpu_slot data) as Hcpu. rewrite Hnil in Hcpu. simpl in Hcpu.
  unfold within_thresholds. split_and!;
    [by apply Hcpu | apply (Hg Memory) | apply (Hg Latency) | apply (Hg ErrorRate)
     | apply (Hg Temperature) | apply (Hg IoWait)].
Qed.

(** The anomaly list is empty exactly when no rule fires on any snapshot. *)
Theorem no_anomalies_iff_within_thresholds data :
  detect_anomalies data = [] ↔ ∀ e, e ∈ data → within_thresholds e.
Proof.
  unfold detect_anomalies, dict_values. split.
  - intros Hnil%fmap_nil_inv. by apply scan_nil_within.
  - intros Hall. cut (scan data = []); [by intros ->|].
    unfold scan, scan_from. induction data as [|e data IH]; [done|]. simpl.
    rewrite scan_entry_within by (apply Hall; by left).
    apply IH. intros e' ?. apply Hall. by right.
Qed.

Lemma no_anomalies_iff_within_thresholds_witness : detect_anomalies [quiet 50; quiet 75] = [].
Proof.
  apply (proj2 (no_anomalies_iff_within_thresholds [quiet 50; quiet 75])).
  intros e He. unfold within_thresholds.
  apply elem_of_cons in He as [->|He]; [simpl; repeat split; discriminate|].
  apply list_elem_of_singleton in He as ->. simpl. repeat split; discriminate.
Defined.

(** ** The shape of the anomaly list *)

Lemma emits_metric e k a : (k, a) ∈ emits e → k ∈ metric_names.
Proof.
  unfold emits, metric_names. rewrite !elem_of_cons, elem_of_nil. intros H.
  repeat (destruct H as [H|H]; [simplify_eq; simpl; tauto|]). done.
Qed.

(** The list has no two entries of the same metric, only entries of the six
    metrics of the rules, and so at most six entries. *)
Theorem anomalies_one_per_metric data :
  NoDup (Anomaly.metric <$> detect_anomalies data) ∧
  (∀ a, a ∈ detect_anomalies data → Anomaly.metric a ∈ metric_names) ∧
  (length (detect_anomalies data) ≤ 6)%nat.
Proof.
  pose proof (scan_NoDup data) as Hnodup.
  assert (∀ k, k ∈ (scan data).*1 → k ∈ metric_names) as Hsub.
  { intros k ([k' a] & -> & Hin)%list_elem_of_fmap. simpl.
    apply scan_elem_of in Hin as (e & _ & Hin). by eapply emits_metric. }
  rewrite <- detect_anomalies_metrics in Hnodup, Hsub. split_and!; [done | |].
  - intros a Ha. apply Hsub, list_elem_of_fmap. by exists a.
  - rewrite <- (length_fmap Anomaly.metric).
    apply (submseteq_length _ metric_names). by apply NoDup_submseteq.
Qed.

Lemma anomalies_one_per_metric_witness :
  Anomaly.metric (anomaly_of IoWait six_breaches) ∈ metric_names.
Proof.
  apply (proj1 (proj2 (anomalies_one_per_metric [six_breaches]))).
  apply detect_anomalies_slot. reflexivity.
Defined.

(** ** What each entry records *)

(** For [memory_usage], [latency_ms], [error_rate], [temperature_celsius]
    and [io_wait]: the list has an entry of the metric exactly when some
    snapshot is above the high threshold, and the entry is then the record
    of such a snapshot whose reading no snapshot above the threshold
    exceeds. *)
Theorem single_rule_metric_entry g data :
  ((∃ a, a ∈ detect_anomalies data ∧ Anomaly.metric a = key g) ↔
   ∃ e, e ∈ data ∧ (limit g < reading g e)%Q) ∧
  (∀ a, a ∈ detect_anomalies data → Anomaly.metric a = key g →
        (∃ e, e ∈ data ∧ (limit g < reading g e)%Q ∧ a = anomaly_of g e) ∧
        (∀ e, e ∈ data → (limit g < reading g e)%Q →
              (reading g e <= Anomaly.value a)%Q)).
Proof.
  split.
  - rewrite <- (scan_gauge_filled g). split.
    + intros (a & Hin%detect_anomalies_slot & Hk). rewrite Hk in Hin. by exists a.
    + intros [a Ha]. exists a.
      assert (Anomaly.metric a = key g) as Hk.
      { eapply scan_keyed, dict_get_elem_of; [apply scan_NoDup | done]. }
      split; [|done]. apply detect_anomalies_slot. by rewrite Hk.
  - intros a Hin%detect_anomalies_slot Hk. rewrite Hk in Hin.
    by apply scan_gauge_worst in Hin.
Qed.

Lemma single_rule_metric_entry_witness :
  (∃ e, e ∈ [six_breaches; quiet 50] ∧ (limit Latency < reading Latency e)%Q ∧
        anomaly_of Latency six_breaches = anomaly_of Latency e) ∧
  (∀ e, e ∈ [six_breaches; quiet 50] → (limit Latency < reading Latency e)%Q →
        (reading Latency e <= Anomaly.value (anomaly_of Latency six_breaches))%Q).
Proof.
  apply (proj2 (single_rule_metric_entry Latency [six_breaches; quiet 50])); [|reflexivity].
  apply detect_anomalies_slot. reflexivity.
Defined.

(** For [cpu_usage]: the list has an entry exactly when some snapshot is
    above 75.  If some snapshot is above 85, the entry is the [high] record
    of a snapshot with the greatest reading of all; if none is, it is the
    [medium] record of the first snapshot above 75. *)
Theorem cpu_entry data :
  ((∃ a, a ∈ detect_anomalies data ∧ Anomaly.metric a = "cpu_usage") ↔
   ∃ e, e ∈ data ∧ (75 < InputData.cpu_usage e)%Q) ∧
  (∀ a, a ∈ detect_anomalies data → Anomaly.metric a = "cpu_usage" →
     ((∃ e, e ∈ data ∧ (85 < InputData.cpu_usage e)%Q) →
        (∃ e, e ∈ data ∧ a = cpu_high e) ∧
        (∀ e, e ∈ data → (InputData.cpu_usage e <= Anomaly.value a)%Q)) ∧
     ((∀ e, e ∈ data → (InputData.cpu_usage e <= 85)%Q) →
        ∃ before e after,
          data = before ++ e :: after ∧
          (∀ e', e' ∈ before → (InputData.cpu_usage e' <= 75)%Q) ∧
          (75 < InputData.cpu_usage e)%Q ∧ a = cpu_medium e)).
Proof.
  pose proof (scan_cpu_slot data) as Hslot. split.
  - split.
    + intros (a & Hin%detect_anomalies_slot & Hk). rewrite Hk in Hin.
      rewrite Hin in Hslot. simpl in Hslot.
      destruct Hslot as [(Hhigh & (e & He & ->) & _)|(_ & bf & e & af & -> & _ & He & _)].
      * exists e. split; [done|]. simpl in Hhigh. lra.
      * exists e. split; [set_solver | done].
    + intros (e & He & Hb).
      destruct (dict_get "cpu_usage" (scan data)) as [a|] eqn:Hget.
      * exists a. assert (Anomaly.metric a = "cpu_usage") as Hk.
        { eapply scan_keyed, dict_get_elem_of; [apply scan_NoDup | done]. }
        split; [|done]. apply detect_anomalies_slot. by rewrite Hk.
      * simpl in Hslot. specialize (Hslot e He). lra.
  - intros a Hin%detect_anomalies_slot Hk. rewrite Hk in Hin.
    rewrite Hin in Hslot. simpl in Hslot. split.
    + intros (e & He & Hhigh).
      destruct Hslot as [(_ & ? & ?)|(Hmax & _)]; [done|].
      specialize (Hmax e He). lra.
    + intros Hnone.
      destruct Hslot as [(Hhigh & (e & He & ->) & _)|(_ & ?)]; [|done].
      specialize (Hnone e He). simpl in Hhigh. lra.
Qed.

Lemma cpu_entry_witness :
  ((∃ e, e ∈ [quiet 78; quiet 90; quiet 80] ∧ (85 < InputData.cpu_usage e)%Q) →
     (∃ e, e ∈ [quiet 78; quiet 90; quiet 80] ∧ cpu_high (quiet 90) = cpu_high e) ∧
     (∀ e, e ∈ [quiet 78; quiet 90; quiet 80] →
           (InputData.cpu_usage e <= Anomaly.value (cpu_high (quiet 90)))%Q)) ∧
  ((∀ e, e ∈ [quiet 78; quiet 90; quiet 80] → (InputData.cpu_usage e <= 85)%Q) →
     ∃ before e after,
       [quiet 78; quiet 90; quiet 80] = before ++ e :: after ∧
       (∀ e', e' ∈ before → (InputData.cpu_usage e' <= 75)%Q) ∧
       (75 < InputData.cpu_usage e)%Q ∧ cpu_high (quiet 90) = cpu_medium e).
Proof.
  apply (proj2 (cpu_entry [quiet 78; quiet 90; quiet 80])); [|reflexivity].
  apply detect_anomalies_slot. reflexivity.
Defined.

(** Every entry records a reading strictly above the threshold it records,
    and its threshold and severity are those of the rule of its metric. *)
Theorem anomaly_above_its_threshold data a :
  a ∈ detect_anomalies data →
  (Anomaly.threshold a < Anomaly.value a)%Q ∧
  (Anomaly.metric a, Anomaly.severity a, Anomaly.threshold a) ∈
    [("cpu_usage", high, 85%Q); ("cpu_usage", medium, 75%Q);
     ("memory_usage", high, 80%Q); ("latency_ms", high, 250%Q);
     ("error_rate", high, 0.05%Q); ("temperature_celsius", high, 75%Q);
     ("io_wait", medium, 10%Q)].
Proof.
  intros Hin. pose proof Hin as Hslot%detect_anomalies_slot.
  assert (Anomaly.metric a = "cpu_usage" ∨ ∃ g, Anomaly.metric a = key g) as [Hk|[g Hk]].
  { apply dict_get_elem_of in Hslot; [|apply scan_NoDup].
    apply scan_elem_of in Hslot as (e & _ & Hem). revert Hem.
    unfold emits. rewrite !elem_of_cons, elem_of_nil.
    intros [Hem|[Hem|[Hem|[Hem|[Hem|[Hem|[Hem|[]]]]]]]];
      injection Hem as Hm _; rewrite Hm; [by left..| | | | |]; right.
    - by exists Memory.
    - by exists Latency.
    - by exists ErrorRate.
    - by exists Temperature.
    - by exists IoWait. }
  - pose proof (scan_cpu_slot data) as Hcpu. rewrite Hk in Hslot.
    rewrite Hslot in Hcpu. simpl in Hcpu.
    destruct Hcpu as [(Hhigh & (e & _ & ->) & _)|(_ & bf & e & af & _ & _ & He & ->)].
    + split; [done|]. simpl. set_solver.
    + split; [done|]. simpl. set_solver.
  - rewrite Hk in Hslot.
    apply scan_gauge_worst in Hslot as [(e & _ & Hb & ->) _].
    split; [done|]. destruct g; simpl; set_solver.
Qed.

Lemma anomaly_above_its_threshold_witness :
  (Anomaly.threshold (anomaly_of ErrorRate six_breaches)
   < Anomaly.value (anomaly_of ErrorRate six_breaches))%Q ∧
  (Anomaly.metric (anomaly_of ErrorRate six_breaches),
   Anomaly.severity (anomaly_of ErrorRate six_breaches),
   Anomaly.threshold (anomaly_of ErrorRate six_breaches)) ∈
    [("cpu_usage", high, 85%Q); ("cpu_usage", medium, 75%Q);
     ("memory_usage", high, 80%Q); ("latency_ms", high, 250%Q);
     ("error_rate", high, 0.05%Q); ("temperature_celsius", high, 75%Q);
     ("io_wait", medium, 10%Q)].
Proof.
  apply (anomaly_above_its_threshold [six_breaches]).
  apply detect_anomalies_slot. reflexivity.
Defined.

(** ** The order of the entries and their fate along the scan *)

Lemma dict_set_new_keys k a m :
  ∃ new, (dict_set k a m).*1 = m.*1 ++ new ∧ new `sublist_of` [k].
Proof.
  rewrite dict_set_keys. destruct (dict_in k m).
  - exists []. split; [by rewrite app_nil_r | apply sublist_nil_l].
  - by exists [k].
Qed.

Lemma cpu_rule_new_keys e m :
  ∃ new, (cpu_rule e m).*1 = m.*1 ++ new ∧ new `sublist_of` ["cpu_usage"].
Proof.
  assert (∃ new, m.*1 = m.*1 ++ new ∧ new `sublist_of` ["cpu_usage"]) as Hsame.
  { exists []. split; [by rewrite app_nil_r | apply sublist_nil_l]. }
  unfold cpu_rule. repeat case_match; auto using dict_set_new_keys.
Qed.

Lemma gauge_rule_new_keys g e m :
  ∃ new, (gauge_rule g e m).*1 = m.*1 ++ new ∧ new `sublist_of` [key g].
Proof.
  assert (∃ new, m.*1 = m.*1 ++ new ∧ new `sublist_of` [key g]) as Hsame.
  { exists []. split; [by rewrite app_nil_r | apply sublist_nil_l]. }
  unfold gauge_rule. repeat case_match; auto using dict_set_new_keys.
Qed.

Lemma scan_entry_new_keys m e :
  ∃ new, (scan_entry m e).*1 = m.*1 ++ new ∧ new `sublist_of` metric_names.
Proof.
  rewrite scan_entry_rules.
  destruct (cpu_rule_new_keys e m) as (n1 & H1 & S1).
  destruct (gauge_rule_new_keys Memory e (cpu_rule e m)) as (n2 & H2 & S2).
  destruct (gauge_rule_new_keys Latency e (gauge_rule Memory e (cpu_rule e m)))
    as (n3 & H3 & S3).
  destruct (gauge_rule_new_keys ErrorRate e
              (gauge_rule Latency e (gauge_rule Memory e (cpu_rule e m))))
    as (n4 & H4 & S4).
  destruct (gauge_rule_new_keys Temperature e
              (gauge_rule ErrorRate e
                 (gauge_rule Latency e (gauge_rule Memory e (cpu_rule e m)))))
    as (n5 & H5 & S5).
  destruct (gauge_rule_new_keys IoWait e
              (gauge_rule Temperature e
                 (gauge_rule ErrorRate e
                    (gauge_rule Latency e (gauge_rule Memory e (cpu_rule e m))))))
    as (n6 & H6 & S6).
  exists (n1 ++ n2 ++ n3 ++ n4 ++ n5 ++ n6). split.
  - rewrite H6, H5, H4, H3, H2, H1. by rewrite <- !app_assoc.
  - change metric_names with
      (["cpu_usage"] ++ [key Memory] ++ [key Latency] ++ [key ErrorRate]
       ++ [key Temperature] ++ [key IoWait]).
    by repeat apply sublist_app.
Qed.

Lemma scan_from_prefix data m : m.*1 `prefix_of` (scan_from m data).*1.
Proof.
  unfold scan_from. revert m. induction data as [|e data IH]; intros m; simpl; [done|].
  etrans; [|apply IH].
  destruct (scan_entry_new_keys m e) as (new & -> & _). by apply prefix_app_r.
Qed.

(** The entries are in the order of first detection: the metrics found in a
    prefix of the sequence stay at the head of the list, in the same order,
    whatever snapshots follow; and the metrics that one snapshot adds come
    in the order [cpu_usage], [memory_usage], [latency_ms], [error_rate],
    [temperature_celsius], [io_wait]. *)
Theorem anomalies_in_detection_order earlier e later :
  Anomaly.metric <$> detect_anomalies earlier
    `prefix_of` Anomaly.metric <$> detect_anomalies (earlier ++ later) ∧
  ∃ new, Anomaly.metric <$> detect_anomalies (earlier ++ [e]) =
           (Anomaly.metric <$> detect_anomalies earlier) ++ new ∧
         new `sublist_of` metric_names.
Proof.
  rewrite !detect_anomalies_metrics, !scan_app. split; [apply scan_from_prefix|].
  apply scan_entry_new_keys.
Qed.

Lemma anomaly_metric_cases data a :
  a ∈ detect_anomalies data →
  Anomaly.metric a = "cpu_usage" ∨ ∃ g, Anomaly.metric a = key g.
Proof.
  intros Hslot%detect_anomalies_slot.
  apply dict_get_elem_of in Hslot; [|apply scan_NoDup].
  apply scan_elem_of in Hslot as (e & _ & Hem). revert Hem.
  unfold emits. rewrite !elem_of_cons, elem_of_nil.
  intros [Hem|[Hem|[Hem|[Hem|[Hem|[Hem|[Hem|[]]]]]]]];
    injection Hem as Hm _; rewrite Hm; [by left..| | | | |]; right.
  - by exists Memory.
  - by exists Latency.
  - by exists ErrorRate.
  - by exists Temperature.
  - by exists IoWait.
Qed.

Lemma cpu_slot_grows e b :
  ∃ b', cpu_slot e (Some b) = Some b' ∧
        (Anomaly.value b <= Anomaly.value b')%Q ∧
        (Anomaly.severity b = high → Anomaly.severity b' = high).
Proof.
  unfold cpu_slot.
  destruct (Qgtb (InputData.cpu_usage e) 85);
    [destruct (Qgtb (InputData.cpu_usage e) (Anomaly.value b)) eqn:Hb
    |destruct (Qgtb (InputData.cpu_usage e) 75)].
  - apply Qgtb_lt in Hb. exists (cpu_high e). split_and!; [done | simpl; lra | done].
  - exists b. split_and!; [done | apply Qle_refl | done].
  - exists b. split_and!; [done | apply Qle_refl | done].
  - exists b. split_and!; [done | apply Qle_refl | done].
Qed.

Lemma cpu_fold_grows later b :
  ∃ b', fold_left (λ o e, cpu_slot e o) later (Some b) = Some b' ∧
        (Anomaly.value b <= Anomaly.value b')%Q ∧
        (Anomaly.severity b = high → Anomaly.severity b' = high).
Proof.
  revert b. induction later as [|e later IH]; intros b; simpl.
  - exists b. split_and!; [done | apply Qle_refl | done].
  - destruct (cpu_slot_grows e b) as (b1 & -> & Hv1 & Hs1).
    destruct (IH b1) as (b' & Hfold & Hv & Hs).
    exists b'. split_and!; [done | lra | auto].
Qed.

(** An entry found in a prefix of the sequence is never lost: after any
    further snapshots the list has an entry of the same metric, with a value
    at least as great, and of severity [high] if the earlier one was. *)
Theorem anomalies_persist earlier later a :
  a ∈ detect_anomalies earlier →
  ∃ a', a' ∈ detect_anomalies (earlier ++ later) ∧
        Anomaly.metric a' = Anomaly.metric a ∧
        (Anomaly.value a <= Anomaly.value a')%Q ∧
        (Anomaly.severity a = high → Anomaly.severity a' = high).
Proof.
  intros Hin. pose proof Hin as Hslot%detect_anomalies_slot.
  assert (∀ a', dict_get (Anomaly.metric a) (scan (earlier ++ later)) = Some a' →
                a' ∈ detect_anomalies (earlier ++ later) ∧
                Anomaly.metric a' = Anomaly.metric a) as Hback.
  { intros a' Ha'.
    assert (Anomaly.metric a' = Anomaly.metric a) as Hk.
    { eapply scan_keyed, dict_get_elem_of; [apply scan_NoDup | done]. }
    split; [|done]. apply detect_anomalies_slot. by rewrite Hk. }
  destruct (anomaly_metric_cases _ _ Hin) as [Hk|[g Hk]]; rewrite Hk in Hslot, Hback.
  - destruct (cpu_fold_grows later a) as (a' & Hfold & Hv & Hs).
    exists a'. destruct (Hback a') as [? ?]; [|by rewrite Hk].
    by rewrite scan_app, scan_from_get_cpu, Hslot.
  - destruct (fold_left (λ o e, gauge_slot g e o) later (Some a)) as [a'|] eqn:Hfold;
      [|by apply gauge_fold_None in Hfold as [? _]].
    assert (dict_get (key g) (scan (earlier ++ later)) = Some a') as Hslot'.
    { by rewrite scan_app, scan_from_get_gauge, Hslot. }
    exists a'. destruct (Hback a' Hslot') as [? ?]. rewrite Hk.
    apply gauge_fold_Some in Hfold as (_ & Hv & _).
    apply scan_gauge_worst in Hslot as [(e & _ & _ & ->) _].
    apply scan_gauge_worst in Hslot' as [(e' & _ & _ & ->) _].
    split_and!; [done | done | by apply Hv | done].
Qed.

Lemma anomalies_persist_witness :
  ∃ a', a' ∈ detect_anomalies ([quiet 80] ++ [quiet 90; quiet 50]) ∧
        Anomaly.metric a' = Anomaly.metric (cpu_medium (quiet 80)) ∧
        (Anomaly.value (cpu_medium (quiet 80)) <= Anomaly.value a')%Q ∧
        (Anomaly.severity (cpu_medium (quiet 80)) = high → Anomaly.severity a' = high).
Proof.
  apply (anomalies_persist [quiet 80] [quiet 90; quiet 50] (cpu_medium (quiet 80))).
  apply detect_anomalies_slot. reflexivity.
Defined.

(** ** The other fields of the insights *)

Lemma pow10_pos (n : positive) : (0 < inject_Z (10 ^ Zpos n))%Q.
Proof. rewrite <- (Zlt_Qlt 0). by apply Z.pow_pos_nonneg. Qed.

Lemma py_round_eq (x : Q) (n : positive) :
  (py_round x n ==
   inject_Z (round_half_even (x * inject_Z (10 ^ Zpos n))) / inject_Z (10 ^ Zpos n))%Q.
Proof. unfold py_round. by rewrite Qred_correct. Qed.

(** [round(_, n)] is monotone, for every number of digits. *)
Lemma py_round_mono (x y : Q) (n : positive) :
  (x <= y)%Q → (py_round x n <= py_round y n)%Q.
Proof.
  intros Hxy. rewrite !py_round_eq. pose proof (pow10_pos n) as Hc.
  set (c := inject_Z (10 ^ Zpos n)) in *.
  assert (x * c <= y * c)%Q as H%round_half_even_mono.
  { apply Qmult_le_compat_r; [done | by apply Qlt_le_weak]. }
  rewrite Zle_Qle in H. unfold Qdiv.
  apply Qmult_le_compat_r; [done|]. by apply Qinv_le_0_compat, Qlt_le_weak.
Qed.

Lemma py_round_0 (n : positive) : (py_round 0 n == 0)%Q.
Proof.
  rewrite py_round_eq. pose proof (pow10_pos n) as Hc.
  set (c := inject_Z (10 ^ Zpos n)) in *.
  assert (round_half_even (0 * c) = 0%Z) as ->.
  { apply Z.le_antisymm.
    - change 0%Z with (round_half_even 0) at 2. apply round_half_even_mono. lra.
    - change 0%Z with (round_half_even 0) at 1. apply round_half_even_mono. lra. }
  unfold Qdiv. change (inject_Z 0) with 0%Q. lra.
Qed.

Lemma py_round_nonneg (x : Q) (n : positive) : (0 <= x)%Q → (0 <= py_round x n)%Q.
Proof. intros Hx. rewrite <- (py_round_0 n). by apply py_round_mono. Qed.

(** [max] returns an element of the sequence that no element exceeds. *)
Lemma py_max_spec (xs : list Q) (m : Q) :
  py_max xs = inr m → m ∈ xs ∧ ∀ x, x ∈ xs → (x <= m)%Q.
Proof.
  destruct xs as [|x xs]; [done|]. intros [= <-].
  cut (∀ x0, let r := fold_left (λ m y, if Qgtb y m then y else m) xs x0 in
             (r = x0 ∨ r ∈ xs) ∧ (x0 <= r)%Q ∧ ∀ y, y ∈ xs → (y <= r)%Q).
  { intros H. destruct (H x) as ([->|?] & Hx & Hxs).
    - split; [by left|]. intros y [->|?]%elem_of_cons; [apply Qle_refl | by apply Hxs].
    - split; [by right|]. intros y [->|?]%elem_of_cons; [done | by apply Hxs]. }
  induction xs as [|y xs IH]; intros x0; simpl.
  - split_and!; [by left | apply Qle_refl | by intros y ?%elem_of_nil].
  - destruct (Qgtb y x0) eqn:Hy; [apply Qgtb_lt in Hy | apply Qgtb_le in Hy].
    + destruct (IH y) as ([Hr|Hr] & Hle & Hxs).
      * split_and!; [right; rewrite Hr; by left | lra |].
        intros z [->|?]%elem_of_cons; [done | by apply Hxs].
      * split_and!; [right; by right | lra |].
        intros z [->|?]%elem_of_cons; [done | by apply Hxs].
    + destruct (IH x0) as ([Hr|Hr] & Hle & Hxs).
      * split_and!; [by left | done |].
        intros z [->|?]%elem_of_cons; [lra | by apply Hxs].
      * split_and!; [right; by right | done |].
        intros z [->|?]%elem_of_cons; [lra | by apply Hxs].
Qed.

(** All fields of the insights of a non-empty sequence. *)
Lemma compute_insights_fields data :
  data ≠ [] →
  ∃ max_cpu max_memory e,
    py_max (InputData.cpu_usage <$> data) = inr max_cpu ∧
    py_max (InputData.memory_usage <$> data) = inr max_memory ∧
    last data = Some e ∧
    compute_insights data =
    inr {| Insights.average_latency_ms :=
             py_round (Qsum (InputData.latency_ms <$> data)
                       / inject_Z (Z.of_nat (length (InputData.latency_ms <$> data)))) 2;
           Insights.max_cpu_usage := py_round max_cpu 2;
           Insights.max_memory_usage := py_round max_memory 2;
           Insights.error_rate :=
             py_round (Qsum (InputData.error_rate <$> data)
                       / inject_Z (Z.of_nat (length (InputData.error_rate <$> data)))) 4;
           Insights.uptime_seconds := InputData.uptime_seconds e |}.
Proof.
  intros Hne.
  assert (∀ f : InputData.t → Q, f <$> data ≠ []) as Hf.
  { by intros f Hnil%fmap_nil_inv. }
  destruct (last data) as [e|] eqn:Hlast; [|by apply last_None in Hlast].
  destruct (py_max_inr (InputData.cpu_usage <$> data)) as [mc Hmc]; [apply Hf|].
  destruct (py_max_inr (InputData.memory_usage <$> data)) as [mm Hmm]; [apply Hf|].
  exists mc, mm, e. split_and!; [done..|].
  unfold compute_insights.
  by rewrite !mean_inr, Hmc, Hmm, (last_item_inr _ _ Hlast) by apply Hf.
Qed.

(** ** The summary depends on the reports only *)

Lemma summary_ext data data' s s' :
  (∀ service status, reported data service status ↔ reported data' service status) →
  service_status_summary data = inr s →
  service_status_summary data' = inr s' →
  s = s'.
Proof.
  intros Hsame. unfold service_status_summary. rewrite !for_each_track_entry.
  destruct (for_each tracker_add (status_items data) _) as [?|tr] eqn:Htr; [done|].
  destruct (for_each tracker_add (status_items data') _) as [?|tr'] eqn:Htr'; [done|].
  simpl. intros [= <-] [= <-].
  apply track_items_inr in Htr as (_ & Hon & Hdeg & Hoff).
  apply track_items_inr in Htr' as (_ & Hon' & Hdeg' & Hoff').
  simpl in *.
  assert (Tracker.online tr = Tracker.online tr') as Eon.
  { apply set_eq. intros x.
    rewrite Hon, Hon', !elem_of_empty, <- !reported_items, Hsame. tauto. }
  assert (Tracker.degraded tr = Tracker.degraded tr') as Edeg.
  { apply set_eq. intros x.
    rewrite Hdeg, Hdeg', !elem_of_empty, <- !reported_items, Hsame. tauto. }
  assert (Tracker.offline tr = Tracker.offline tr') as Eoff.
  { apply set_eq. intros x.
    rewrite Hoff, Hoff', !elem_of_empty, <- !reported_items, Hsame. tauto. }
  destruct tr, tr'; simpl in *. by subst.
Qed.

Lemma statuses_recognised_reported data :
  statuses_recognised data ↔
  ∀ service status, reported data service status → recognised status.
Proof.
  unfold statuses_recognised. rewrite Forall_forall. split.
  - intros Hall service status Hrep%reported_items. apply (Hall _ Hrep).
  - intros Hall [service status] Hin%reported_items. by apply (Hall service).
Qed.

(** The summary does not depend on the order of the snapshots nor on how
    often a report is repeated: two sequences in which the same services
    are reported in the same states have the same summary. *)
Theorem summary_depends_on_reports_only data data' s :
  (∀ service status, reported data service status ↔ reported data' service status) →
  service_status_summary data = inr s →
  service_status_summary data' = inr s.
Proof.
  intros Hsame Hs.
  assert (statuses_recognised data') as Hrec.
  { apply statuses_recognised_reported. intros service status Hrep%Hsame.
    apply summary_inr in Hs as [Hall _].
    by apply (proj1 (statuses_recognised_reported data) Hall service). }
  destruct (summary_recognised data' Hrec) as [s' Hs'].
  by rewrite (summary_ext data data' s s' Hsame Hs Hs').
Qed.

Lemma reported_Permutation data data' service status :
  data ≡ₚ data' → reported data service status → reported data' service status.
Proof.
  intros Hperm (e & He & Hin). exists e. split; [by rewrite <- Hperm | done].
Qed.

Lemma summary_depends_on_reports_only_witness :
  service_status_summary (reverse conflicting_reports ++ conflicting_reports) =
  inr {| ServiceStatusSummary.online := [];
         ServiceStatusSummary.degraded := ["api_gateway"; "cache"];
         ServiceStatusSummary.offline := ["database"] |}.
Proof.
  apply (summary_depends_on_reports_only conflicting_reports); [|vm_compute; reflexivity].
  intros service status. unfold reported. split; intros (e & He & Hin); exists e.
  - split; [|done]. apply elem_of_app. by right.
  - split; [|done]. apply elem_of_app in He as [He|He]; [|done].
    by apply elem_of_reverse in He.
Defined.

(** In particular the summary of a sequence is that of any permutation of
    it. *)
Theorem summary_of_permutation data data' s :
  data ≡ₚ data' →
  service_status_summary data = inr s →
  service_status_summary data' = inr s.
Proof.
  intros Hperm Hs.
  assert (statuses_recognised data') as Hrec.
  { apply statuses_recognised_reported. intros service status Hrep.
    apply summary_inr in Hs as [Hall _].
    apply (proj1 (statuses_recognised_reported data) Hall service).
    by apply (reported_Permutation data' data). }
  destruct (summary_recognised data' Hrec) as [s' Hs'].
  rewrite Hs'. f_equal. symmetry. apply (summary_ext data data' s s'); [|done..].
  intros service status. split; by apply reported_Permutation.
Qed.

Lemma summary_of_permutation_witness :
  service_status_summary (reverse conflicting_reports) =
  inr {| ServiceStatusSummary.online := [];
         ServiceStatusSummary.degraded := ["api_gateway"; "cache"];
         ServiceStatusSummary.offline := ["database"] |}.
Proof.
  apply (summary_of_permutation conflicting_reports).
  - symmetry. apply reverse_Permutation.
  - vm_compute. reflexivity.
Defined.

(** ** Running the node again *)

(** [analysis_node] reads [parsed_data] only and leaves it as it is, so
    running it on the state it returned returns that state again. *)
Theorem analysis_node_idempotent state state' :
  analysis_node state = inr state' →
  analysis_node state' = inr state' ∧
  GraphState.parsed_data state' = GraphState.parsed_data state.
Proof.
  unfold analysis_node.
  destruct (compute_insights (GraphState.parsed_data state)) as [?|i] eqn:Hi; [done|].
  simpl. destruct (service_status_summary (GraphState.parsed_data state)) as [?|s] eqn:Hs;
    [done|].
  simpl. intros [= <-]. simpl. by rewrite Hi, Hs.
Qed.

Lemma analysis_node_idempotent_witness :
  ∃ state',
    analysis_node (initial_state conflicting_reports) = inr state' ∧
    analysis_node state' = inr state' ∧
    GraphState.parsed_data state' = conflicting_reports.
Proof.
  eexists. split; [vm_compute; reflexivity|].
  apply (analysis_node_idempotent (initial_state conflicting_reports)).
  vm_compute. reflexivity.
Defined.

(** ** The context sent to the model *)

Lemma anomaly_summary_cons float_str a anomalies :
  ∃ rest, anomaly_summary float_str (a :: anomalies) = "-" +:+ rest.
Proof.
  unfold anomaly_summary. rewrite fmap_cons.
  destruct (anomaly_line float_str <$> anomalies); by eexists.
Qed.

(** The prompt says "No critical anomalies" in place of the list of
    anomalies exactly when there is no anomaly; otherwise the section is the
    list, whose first line starts with the dash of the first anomaly. *)
Theorem prompt_anomalies_section float_str anomalies :
  (anomalies_section float_str anomalies = "No critical anomalies" ↔ anomalies = []) ∧
  (anomalies ≠ [] →
   anomalies_section float_str anomalies = anomaly_summary float_str anomalies ∧
   ∃ rest, anomalies_section float_str anomalies = "-" +:+ rest).
Proof.
  destruct anomalies as [|a anomalies].
  - split; [done|]. by intros [].
  - destruct (anomaly_summary_cons float_str a anomalies) as [rest Hrest].
    assert (anomalies_section float_str (a :: anomalies) = "-" +:+ rest) as Hsec.
    { unfold anomalies_section. by rewrite Hrest. }
    split; [split; [by rewrite Hsec | done]|].
    intros _. split; [by rewrite Hsec, Hrest | by exists rest].
Qed.

Lemma prompt_anomalies_section_witness :
  anomalies_section (λ _, "0") (detect_anomalies [six_breaches]) =
    anomaly_summary (λ _, "0") (detect_anomalies [six_breaches]) ∧
  ∃ rest, anomalies_section (λ _, "0") (detect_anomalies [six_breaches]) = "-" +:+ rest.
Proof.
  apply (proj2 (prompt_anomalies_section (λ _, "0") (detect_anomalies [six_breaches]))).
  discriminate.
Defined.

(** ** The report and its validation *)

Lemma endswith_refl s : endswith s s = true.
Proof. destruct s; simpl; by rewrite ?Ascii.eqb_refl, ?String.eqb_refl. Qed.

Lemma endswith_app s suffix : endswith (s +:+ suffix) suffix = true.
Proof.
  induction s as [|c s IH]; simpl.
  - apply endswith_refl.
  - rewrite IH. by case_match.
Qed.

Lemma prefix_app needle s t :
  String.prefix needle s = true → String.prefix needle (s +:+ t) = true.
Proof.
  revert needle. induction s as [|d s IH]; intros [|c needle]; simpl; try done.
  - by destruct t.
  - destruct (Ascii.ascii_dec c d); [apply IH | done].
Qed.

Lemma contains_app s t needle :
  contains s needle = true → contains (s +:+ t) needle = true.
Proof.
  induction s as [|c s IH].
  - simpl. destruct needle; [|done]. intros _. by destruct t.
  - cbn [contains]. destruct (String.prefix needle (String c s)) eqn:Hp.
    + intros _. apply (prefix_app _ _ t) in Hp.
      change (String c s +:+ t) with (String c (s +:+ t)) in *.
      cbn [contains]. by rewrite Hp.
    + intros Hs%IH. change (String c s +:+ t) with (String c (s +:+ t)).
      cbn [contains]. rewrite Hs. by case_match.
Qed.

Lemma severities_valid (anomalies : list Anomaly.t) :
  forallb (λ a, bool_decide (Anomaly.severity a ∈ [low; medium; high])) anomalies = true.
Proof.
  apply forallb_forall. intros a _. apply bool_decide_eq_true.
  destruct (Anomaly.severity a); set_solver.
Qed.

(** The checks on the severities and on the three lists of the summary
    cannot fail: the verdict does not depend on the anomalies nor on the
    summary of the report. *)
Theorem validate_output_ignores_anomalies output anomalies summary :
  validate_output
    {| OutputData.timestamp := OutputData.timestamp output;
       OutputData.insights := OutputData.insights output;
       OutputData.anomalies := anomalies;
       OutputData.recommendations := OutputData.recommendations output;
       OutputData.service_status_summary := summary |} =
  validate_output output.
Proof.
  unfold validate_output, checks. cbn [forallb snd OutputData.timestamp
    OutputData.insights OutputData.anomalies OutputData.recommendations].
  by rewrite !severities_valid.
Qed.

Lemma insights_nonnegative data i :
  compute_insights data = inr i →
  (∀ e, e ∈ data →
     (0 <= InputData.latency_ms e)%Q ∧ (0 <= InputData.cpu_usage e)%Q ∧
     (0 <= InputData.memory_usage e)%Q ∧ (0 <= InputData.error_rate e)%Q) →
  (0 <= Insights.average_latency_ms i)%Q ∧ (0 <= Insights.max_cpu_usage i)%Q ∧
  (0 <= Insights.max_memory_usage i)%Q ∧ (0 <= Insights.error_rate i)%Q.
Proof.
  intros Hi Hpos.
  assert (data ≠ []) as Hne by (by intros ->).
  destruct (compute_insights_fields data Hne) as (mc & mm & e & Hmc & Hmm & _ & Hi').
  rewrite Hi in Hi'. injection Hi' as ->. simpl.
  apply py_max_spec in Hmc as [(ec & -> & Hec)%list_elem_of_fmap _].
  apply py_max_spec in Hmm as [(em & -> & Hem)%list_elem_of_fmap _].
  assert (∀ (f : InputData.t → Q) (hi : Q),
            (∀ e, e ∈ data → (0 <= f e <= hi)%Q) →
            (0 <= Qsum (f <$> data) / inject_Z (Z.of_nat (length (f <$> data))))%Q)
    as Hmean.
  { intros f hi Hf. destruct (mean_bounds (f <$> data) 0 hi) as [_ [? _]]; [|  |done].
    - by intros ?%fmap_nil_inv.
    - intros x (e' & -> & ?)%list_elem_of_fmap. by apply Hf. }
  assert (∀ f : InputData.t → Q, (∀ e, e ∈ data → (0 <= f e)%Q) →
            ∃ hi, (0 <= hi)%Q ∧ ∀ e, e ∈ data → (0 <= f e <= hi)%Q) as Hhi.
  { intros f Hf. clear -Hf. induction data as [|e data IH].
    - exists 0%Q. split; [lra|]. by intros e ?%elem_of_nil.
    - destruct IH as (hi & Hhi0 & Hhi); [intros e' ?; apply Hf; by right|].
      pose proof (Hf e ltac:(by left)) as He.
      exists (hi + f e)%Q. split; [lra|]. intros e' [->|He']%elem_of_cons.
      + split; lra.
      + destruct (Hhi e' He'). split; lra. }
  split_and!.
  - destruct (Hhi InputData.latency_ms) as (hi & _ & ?); [intros e' He'; by apply Hpos|].
    apply py_round_nonneg. by apply (Hmean _ hi).
  - apply py_round_nonneg. by apply Hpos.
  - apply py_round_nonneg. by apply Hpos.
  - destruct (Hhi InputData.error_rate) as (hi & _ & ?); [intros e' He'; by apply Hpos|].
    apply py_round_nonneg. by apply (Hmean _ hi).
Qed.

(** The report that [output_node] builds from the results of
    [analysis_node] passes [validate_output], provided that no snapshot has
    a negative latency, cpu usage, memory usage or error rate, the uptime of
    the last snapshot is not negative, the text of the clock has a [T], and
    every recommendation has a non-empty [id] and [action]. *)
Theorem report_passes_validation state state' insights summary
    utcnow_isoformat recommendations :
  analysis_node state = inr state' →
  GraphState.insights state' = Some insights →
  GraphState.service_status_summary state' = Some summary →
  (∀ e, e ∈ GraphState.parsed_data state →
     (0 <= InputData.latency_ms e)%Q ∧ (0 <= InputData.cpu_usage e)%Q ∧
     (0 <= InputData.memory_usage e)%Q ∧ (0 <= InputData.error_rate e)%Q) →
  (∀ e, last (GraphState.parsed_data state) = Some e →
        (0 <= InputData.uptime_seconds e)%Z) →
  contains utcnow_isoformat "T" = true →
  (∀ r, r ∈ recommendations →
        Recommendation.id r ≠ "" ∧ Recommendation.action r ≠ "") →
  validate_output
    (output_data utcnow_isoformat insights (GraphState.anomalies state')
       recommendations summary) = true.
Proof.
  intros Hnode Hins Hsum Hpos Hup Hclock Hrecs.
  assert (compute_insights (GraphState.parsed_data state) = inr insights) as Hi.
  { revert Hnode. unfold analysis_node.
    destruct (compute_insights _) as [?|i]; [done|]. simpl.
    destruct (service_status_summary _) as [?|s]; [done|]. simpl.
    intros [= <-]. simpl in Hins. by injection Hins as ->. }
  destruct (insights_nonnegative _ _ Hi Hpos) as (Hlat & Hcpu & Hmem & Herr).
  assert (0 <= Insights.uptime_seconds insights)%Z as Huptime.
  { destruct (last (GraphState.parsed_data state)) as [e|] eqn:Hlast.
    - destruct (compute_insights_inr _ _ Hlast) as (i & Hi' & _ & Hu).
      rewrite Hi in Hi'. injection Hi' as <-. rewrite Hu. by apply Hup.
    - apply last_None in Hlast. by rewrite Hlast in Hi. }
  assert (forallb (λ r, (0 <? String.length (Recommendation.id r))%nat &&
                        (0 <? String.length (Recommendation.action r))%nat)
            recommendations = true) as Hvalid.
  { apply forallb_forall. intros r Hr%list_elem_of_In.
    destruct (Hrecs r Hr) as [Hid Hact].
    destruct (Recommendation.id r); [done|]. by destruct (Recommendation.action r). }
  unfold validate_output, checks, output_data.
  cbn [forallb snd id OutputData.timestamp OutputData.insights OutputData.anomalies
       OutputData.recommendations].
  rewrite endswith_app, (contains_app _ "Z" _ Hclock), Hvalid, severities_valid.
  rewrite (proj2 (Qle_bool_iff _ _) Hlat), (proj2 (Qle_bool_iff _ _) Hcpu),
    (proj2 (Qle_bool_iff _ _) Hmem), (proj2 (Qle_bool_iff _ _) Herr),
    (proj2 (Z.leb_le _ _) Huptime).
  reflexivity.
Qed.

Lemma report_passes_validation_witness :
  validate_output
    (output_data "2023-10-01T12:00:00.000000"
       {| Insights.average_latency_ms := 100;
          Insights.max_cpu_usage := 50;
          Insights.max_memory_usage := 60;
          Insights.error_rate := 0.01;
          Insights.uptime_seconds := 11800 |}
       []
       [{| Recommendation.id := "rec-001";
           Recommendation.action := "scale up resources";
           Recommendation.target := "server";
           Recommendation.parameters := [("cores", JNumber 4)];
           Recommendation.benefit_estimate := "30% improvement" |}]
       {| ServiceStatusSummary.online := [];
          ServiceStatusSummary.degraded := ["api_gateway"; "cache"];
          ServiceStatusSummary.offline := ["database"] |}) = true.
Proof.
  apply (report_passes_validation (initial_state conflicting_reports)
           {| GraphState.parsed_data := conflicting_reports;
              GraphState.insights :=
                Some {| Insights.average_latency_ms := 100;
                        Insights.max_cpu_usage := 50;
                        Insights.max_memory_usage := 60;
                        Insights.error_rate := 0.01;
                        Insights.uptime_seconds := 11800 |};
              GraphState.anomalies := [];
              GraphState.service_status_summary :=
                Some {| ServiceStatusSummary.online := [];
                        ServiceStatusSummary.degraded := ["api_gateway"; "cache"];
                        ServiceStatusSummary.offline := ["database"] |} |}).
  - vm_compute. reflexivity.
  - reflexivity.
  - reflexivity.
  - intros e He. apply elem_of_cons in He as [->|He]; [by repeat split|].
    apply list_elem_of_singleton in He as ->. by repeat split.
  - intros e [= <-]. done.
  - reflexivity.
  - intros r ->%list_elem_of_singleton. by split.
Defined.

(** ** The averaged and rounded fields of the insights *)

(** [compute_insights] is [compute_insights_with] at the exact functions. *)
Lemma compute_insights_with_exact data :
  compute_insights_with mean py_round data = compute_insights data.
Proof. reflexivity. Qed.

(** The exact functions have the two properties. *)
Lemma mean_averages : averages mean.
Proof.
  split; [done|]. intros xs Hne. eexists. split; [by apply mean_inr|].
  intros lo hi Hxs. by destruct (mean_bounds xs lo hi Hne Hxs) as [_ ?].
Qed.

Lemma py_round_rounds : rounds_monotonically py_round.
Proof. intros n x y. apply py_round_mono. Qed.

(** All fields of the insights of a non-empty sequence, for any mean. *)
Lemma compute_insights_with_fields mean_f round_f data :
  averages mean_f → data ≠ [] →
  ∃ mean_latency mean_error max_cpu max_memory e,
    mean_f (InputData.latency_ms <$> data) = inr mean_latency ∧
    mean_f (InputData.error_rate <$> data) = inr mean_error ∧
    py_max (InputData.cpu_usage <$> data) = inr max_cpu ∧
    py_max (InputData.memory_usage <$> data) = inr max_memory ∧
    last data = Some e ∧
    compute_insights_with mean_f round_f data =
    inr {| Insights.average_latency_ms := round_f mean_latency 2%positive;
           Insights.max_cpu_usage := round_f max_cpu 2%positive;
           Insights.max_memory_usage := round_f max_memory 2%positive;
           Insights.error_rate := round_f mean_error 4%positive;
           Insights.uptime_seconds := InputData.uptime_seconds e |}.
Proof.
  intros [_ Hmean] Hne.
  assert (∀ f : InputData.t → Q, f <$> data ≠ []) as Hf.
  { by intros f Hnil%fmap_nil_inv. }
  destruct (last data) as [e|] eqn:Hlast; [|by apply last_None in Hlast].
  destruct (Hmean _ (Hf InputData.latency_ms)) as (ml & Hml & _).
  destruct (Hmean _ (Hf InputData.error_rate)) as (me & Hme & _).
  destruct (py_max_inr (InputData.cpu_usage <$> data)) as [mc Hmc]; [apply Hf|].
  destruct (py_max_inr (InputData.memory_usage <$> data)) as [mm Hmm]; [apply Hf|].
  exists ml, me, mc, mm, e. split_and!; [done..|].
  unfold compute_insights_with.
  by rewrite Hml, Hmc, Hmm, Hme, (last_item_inr _ _ Hlast).
Qed.



(** The maxima of the insights, whatever monotone rounding function stands
    for [round]: each is the reading of a snapshot that no snapshot
    exceeds, rounded to two decimals, and no rounded reading exceeds it. *)
Theorem insights_maxima_rounded mean_f round_f data :
  averages mean_f →
  rounds_monotonically round_f →
  data ≠ [] →
  ∃ i e_cpu e_memory,
    compute_insights_with mean_f round_f data = inr i ∧
    e_cpu ∈ data ∧ e_memory ∈ data ∧
    Insights.max_cpu_usage i = round_f (InputData.cpu_usage e_cpu) 2%positive ∧
    Insights.max_memory_usage i = round_f (InputData.memory_usage e_memory) 2%positive ∧
    (∀ e, e ∈ data →
       (InputData.cpu_usage e <= InputData.cpu_usage e_cpu)%Q ∧
       (round_f (InputData.cpu_usage e) 2%positive <= Insights.max_cpu_usage i)%Q ∧
       (InputData.memory_usage e <= InputData.memory_usage e_memory)%Q ∧
       (round_f (InputData.memory_usage e) 2%positive <= Insights.max_memory_usage i)%Q).
Proof.
  intros Hmean Hround Hne.
  destruct (compute_insights_with_fields mean_f round_f data Hmean Hne)
    as (ml & me & mc & mm & e & _ & _ & Hmc & Hmm & _ & Hi).
  apply py_max_spec in Hmc as [(ec & -> & Hec)%list_elem_of_fmap Hcmax].
  apply py_max_spec in Hmm as [(em & -> & Hem)%list_elem_of_fmap Hmmax].
  eexists _, ec, em. split_and!; [exact Hi | done..|].
  intros e' He'. simpl.
  assert (InputData.cpu_usage e' <= InputData.cpu_usage ec)%Q as Hc.
  { apply Hcmax, list_elem_of_fmap. by exists e'. }
  assert (InputData.memory_usage e' <= InputData.memory_usage em)%Q as Hm.
  { apply Hmmax, list_elem_of_fmap. by exists e'. }
  split_and!; [done | by apply Hround | done | by apply Hround].
Qed.

Lemma insights_maxima_rounded_witness :
  ∃ i e_cpu e_memory,
    compute_insights_with mean py_round [quiet 80; quiet 90] = inr i ∧
    e_cpu ∈ [quiet 80; quiet 90] ∧ e_memory ∈ [quiet 80; quiet 90] ∧
    Insights.max_cpu_usage i = py_round (InputData.cpu_usage e_cpu) 2 ∧
    Insights.max_memory_usage i = py_round (InputData.memory_usage e_memory) 2 ∧
    (∀ e, e ∈ [quiet 80; quiet 90] →
       (InputData.cpu_usage e <= InputData.cpu_usage e_cpu)%Q ∧
       (py_round (InputData.cpu_usage e) 2 <= Insights.max_cpu_usage i)%Q ∧
       (InputData.memory_usage e <= InputData.memory_usage e_memory)%Q ∧
       (py_round (InputData.memory_usage e) 2 <= Insights.max_memory_usage i)%Q).
Proof.
  apply (insights_maxima_rounded mean py_round [quiet 80; quiet 90]).
  - apply mean_averages.
  - apply py_round_rounds.
  - discriminate.
Defined.


